(** * Filter-input synthesis and loader call-throughs of gql_ug

    A shallow embedding of [gql_ug/GraphTypeDefinitions/utils.py]
    (the [createInputs] decorator and the hard-coded scalar filters),
    of [BaseGQLModel.resolve_reference] and of the insert/update
    mutation handlers of the entity modules, with the properties the
    specification states about them.  The embedding comes first, then
    the vocabulary of the statements, then the proofs. *)

From Stdlib Require Import String Ascii List.
From stdpp Require Import gmap strings.
Import ListNotations.

Local Open Scope string_scope.
Local Open Scope list_scope.

(** * The embedding of utils.py *)

(** ** Python objects that occur as annotations *)

(** The values found in [cls.__annotations__] of a decorated dataclass,
    together with the classes the module itself defines: the builtin
    classes [str], [int], [bool], [datetime.datetime] and [uuid.UUID];
    the five filter classes of lines 134-172; any other class, by its
    name; an alias [Annotated["target", strawberry.lazy("module")]]; a
    bare string used as an annotation; and a class created at run time,
    by its address on the heap.  Classes are compared by identity,
    [Annotated] aliases by their arguments. *)
Inductive pytype : Type :=
  | py_str | py_int | py_bool | py_datetime | py_UUID
  | StrFilter | DatetimeFilter | IntFilter | BoolFilter | UuidFilter
  | py_class (name : string)
  | py_Annotated (target module : string)
  | py_strlit (s : string)
  | py_dyn (addr : nat).

#[global] Instance pytype_eq_dec : EqDecision pytype.
Proof. solve_decision. Defined.

Definition pytype_code (t : pytype) : nat + (string + (string * string + (string + nat))) :=
  match t with
  | py_str => inl 0 | py_int => inl 1 | py_bool => inl 2
  | py_datetime => inl 3 | py_UUID => inl 4
  | StrFilter => inl 5 | DatetimeFilter => inl 6 | IntFilter => inl 7
  | BoolFilter => inl 8 | UuidFilter => inl 9
  | py_class n => inr (inl n)
  | py_Annotated t m => inr (inr (inl (t, m)))
  | py_strlit s => inr (inr (inr (inl s)))
  | py_dyn a => inr (inr (inr (inr a)))
  end.

Definition pytype_decode (c : nat + (string + (string * string + (string + nat)))) : pytype :=
  match c with
  | inl 0 => py_str | inl 1 => py_int | inl 2 => py_bool
  | inl 3 => py_datetime | inl 4 => py_UUID
  | inl 5 => StrFilter | inl 6 => DatetimeFilter | inl 7 => IntFilter
  | inl 8 => BoolFilter | inl _ => UuidFilter
  | inr (inl n) => py_class n
  | inr (inr (inl (t, m))) => py_Annotated t m
  | inr (inr (inr (inl s))) => py_strlit s
  | inr (inr (inr (inr a))) => py_dyn a
  end.

#[global] Instance pytype_countable : Countable pytype.
Proof.
  refine (inj_countable' pytype_code pytype_decode _).
  intros []; reflexivity.
Defined.

(** ** Type annotations and class objects *)

(** The [typing] constructs the module builds.  A string placed inside
    [typing.List[...]] is a forward reference, resolved later by name. *)
Inductive annot : Type :=
  | A_type (t : pytype)
  | A_fwd (name : string)
  | A_List (a : annot)
  | A_Optional (a : annot).

#[global] Instance annot_eq_dec : EqDecision annot.
Proof. solve_decision. Defined.

Inductive default_value : Type := UNSET | default_None.

(** The result of [strawberry.field(name=..., description=..., default=...)]. *)
Record StrawberryField : Type := strawberry_field {
  sf_name : string;
  sf_description : string;
  sf_default : default_value
}.

(** A class object: [__name__], [__annotations__] (a dict, kept in
    insertion order), the attributes assigned with [setattr], the
    description recorded by [strawberry.input] and the base class:
    [None] for the builtin [object], otherwise the class that the global
    name [object] was bound to when [type(name, (object,), {})] ran. *)
Record classobj : Type := mk_class {
  c_name : string;
  c_annotations : list (string * annot);
  c_attrs : list (string * StrawberryField);
  c_description : option string;
  c_base : option pytype
}.

(** ** Python dicts in insertion order *)

Section Dict.
Context {V : Type}.

(** [d[k] = v]: an existing key keeps its position. *)
Fixpoint dict_set (d : list (string * V)) (k : string) (v : V) : list (string * V) :=
  match d with
  | [] => [(k, v)]
  | (k', v') :: d' =>
      if decide (k' = k) then (k', v) :: d' else (k', v') :: dict_set d' k v
  end.

(** [{**d, **items}] and dict comprehensions over [items]. *)
Definition dict_update (d items : list (string * V)) : list (string * V) :=
  foldl (λ acc kv, dict_set acc kv.1 kv.2) d items.

Fixpoint dict_get (d : list (string * V)) (k : string) : option V :=
  match d with
  | [] => None
  | (k', v') :: d' => if decide (k' = k) then Some v' else dict_get d' k
  end.

Definition dict_keys (d : list (string * V)) : list string := map fst d.
End Dict.

(** ** The hard-coded scalar filters (utils.py, lines 134-172) *)

Definition op_description : string := "operation for select.filter() method".

Definition op_slot (op : string) (a : annot) : (string * annot) * (string * StrawberryField) :=
  ((op, A_Optional a), (op, strawberry_field op op_description default_None)).

Definition input_class (name description : string)
    (slots : list ((string * annot) * (string * StrawberryField))) : classobj :=
  mk_class name (map fst slots) (map snd slots) (Some description) None.

Definition StrFilter_def : classobj :=
  input_class "StrFilter" "Str filter methods, only one constrain allowed"
    [ op_slot "_eq" (A_type py_str); op_slot "_le" (A_type py_str);
      op_slot "_lt" (A_type py_str); op_slot "_ge" (A_type py_str);
      op_slot "_gt" (A_type py_str); op_slot "_like" (A_type py_str);
      op_slot "_ilike" (A_type py_str); op_slot "_startswith" (A_type py_str);
      op_slot "_endswith" (A_type py_str) ].

Definition DatetimeFilter_def : classobj :=
  input_class "DatetimeFilter" "Datetime filter methods, only one constrain allowed"
    [ op_slot "_eq" (A_type py_datetime); op_slot "_le" (A_type py_datetime);
      op_slot "_lt" (A_type py_datetime); op_slot "_ge" (A_type py_datetime);
      op_slot "_gt" (A_type py_datetime) ].

Definition IntFilter_def : classobj :=
  input_class "IntFilter" "Integer filter methods, only one constrain allowed"
    [ op_slot "_eq" (A_type py_int); op_slot "_le" (A_type py_int);
      op_slot "_lt" (A_type py_int); op_slot "_ge" (A_type py_int);
      op_slot "_gt" (A_type py_int); op_slot "_in" (A_List (A_type py_int)) ].

Definition BoolFilter_def : classobj :=
  input_class "BoolFilter" "Integer filter methods, only one constrain allowed"
    [ op_slot "_eq" (A_type py_bool) ].

Definition UuidFilter_def : classobj :=
  input_class "UuidFilter" "Integer filter methods, only one constrain allowed"
    [ op_slot "_eq" (A_type py_UUID); op_slot "_in" (A_List (A_type py_UUID)) ].

(** ** Interpreter state *)

(** [inputTypeGQLMapper] is the dict created on line 9 and [heap] the
    classes created by [type(name, (object,), {})]: the class at address
    [a] is [py_dyn a].  [module_attrs] is the part of the module's
    globals that holds types: the names bound to the five filter classes
    at import and every name written on line 124.  The attributes of
    [sys.modules[__name__]] are the globals of utils.py, so what line 124
    writes is what the function finds when it next reads that global.  A
    name that [module_attrs] does not bind has the value it got at
    import: the modules [typing], [sys], [strawberry] and [logging], the
    dict for [inputTypeGQLMapper], the module's name for [__name__], and
    for [print], [zip], [type], [object] and [setattr] the builtin of
    that name.  Line 124 binds a name to one of the objects of line 121:
    a class made by [strawberry.input], or, under the name [Annotated],
    a lazy reference. *)
Record state : Type := mk_state {
  inputTypeGQLMapper : gmap pytype pytype;
  module_attrs : gmap string pytype;
  heap : list classobj
}.

(** The class behind a type object, when it is one that carries
    annotations the module knows. *)
Definition class_of (h : list classobj) (t : pytype) : option classobj :=
  match t with
  | StrFilter => Some StrFilter_def
  | DatetimeFilter => Some DatetimeFilter_def
  | IntFilter => Some IntFilter_def
  | BoolFilter => Some BoolFilter_def
  | UuidFilter => Some UuidFilter_def
  | py_dyn a => h !! a
  | _ => None
  end.

(** [t.__name__].  A bare string has no such attribute; an
    [Annotated[...]] alias answers ["Annotated"], which is what the test
    on line 34 relies on. *)
Definition dunder_name (h : list classobj) (t : pytype) : option string :=
  match t with
  | py_str => Some "str"
  | py_int => Some "int"
  | py_bool => Some "bool"
  | py_datetime => Some "datetime"
  | py_UUID => Some "UUID"
  | py_class n => Some n
  | py_Annotated _ _ => Some "Annotated"
  | py_strlit _ => None
  | _ => c_name <$> class_of h t
  end.

(** Whether the class [t] has the attribute [attr], its own or
    inherited: a dataclass keeps the default of each field as a class
    attribute, so these are the names given to [setattr] before
    [strawberry.input] ran.  A base is older than its subclass, so the
    size of the heap bounds the search. *)
Fixpoint class_has_attr (fuel : nat) (h : list classobj) (t : pytype) (attr : string)
    : bool :=
  match fuel with
  | 0 => false
  | S fuel' =>
      match class_of h t with
      | Some c =>
          bool_decide (attr ∈ dict_keys (c_attrs c))
          || match c_base c with
             | Some b => class_has_attr fuel' h b attr
             | None => false
             end
      | None => false
      end
  end.

(** The state once utils.py has been imported (lines 9 and 175-179). *)
Definition initial_state : state :=
  mk_state
    (<[py_bool := BoolFilter]> (<[py_datetime := DatetimeFilter]>
      (<[py_str := StrFilter]> (<[py_int := IntFilter]>
        (<[py_UUID := UuidFilter]> ∅)))))
    (<["UuidFilter" := UuidFilter]> (<["BoolFilter" := BoolFilter]>
      (<["IntFilter" := IntFilter]> (<["DatetimeFilter" := DatetimeFilter]>
        (<["StrFilter" := StrFilter]> ∅)))))
    [].

(** ** Exceptions and the state monad *)

Inductive pyexn : Type :=
  | AttributeError (attr : string)
  | ValueError (msg : string)
  | TypeError (msg : string)
  | KeyError (key : pytype)
  | SyntaxError (msg : string).

Inductive outcome (A : Type) : Type :=
  | Returned (a : A)
  | Raised (e : pyexn).
Arguments Returned {A} a.
Arguments Raised {A} e.

(** A computation that reads and mutates the module state and either
    returns or raises; mutations made before a raise stay. *)
Definition Py (A : Type) : Type := state → outcome A * state.

Definition ret {A} (a : A) : Py A := λ st, (Returned a, st).
Definition raise {A} (e : pyexn) : Py A := λ st, (Raised e, st).
Definition bind {A B} (m : Py A) (k : A → Py B) : Py B :=
  λ st, match m st with
        | (Returned a, st') => k a st'
        | (Raised e, st') => (Raised e, st')
        end.

Notation "x <~ m ;; k" := (bind m (λ x, k))
  (at level 100, m at next level, right associativity).
Notation "m ;;; k" := (bind m (λ _, k))
  (at level 100, right associativity).

Fixpoint mapM {A B} (f : A → Py B) (l : list A) : Py (list B) :=
  match l with
  | [] => ret []
  | a :: l' => b <~ f a ;; bs <~ mapM f l' ;; ret (b :: bs)
  end.

(** A loop whose body only reads globals: no iteration changes what the
    next one reads, so the first iteration decides. *)
Definition for_each {A} (l : list A) (body : Py unit) : Py unit :=
  match l with
  | [] => ret tt
  | _ :: _ => body
  end.

(** ** Globals *)

(** Reading a global that the module binds at import, or a builtin:
    [None] when the name still has that value, otherwise the type that
    line 124 has bound to it. *)
Definition global (g : string) : Py (option pytype) :=
  λ st, (Returned (module_attrs st !! g), st).

(** Calling [print], [zip], [type] or [setattr] with positional
    arguments.  [strawberry.input] makes its classes keyword-only
    dataclasses, so a class that stands in for the builtin refuses
    them. *)
Definition call_builtin (g : string) : Py unit :=
  x <~ global g ;;
  match x with
  | None => ret tt
  | Some _ => raise (TypeError "__init__() takes 1 positional argument")
  end.

(** What [g.attr] evaluates to, for a global [g] that is a module or the
    dict at import: the member itself, or, once [g] is bound to a class
    with a field called [attr], that field's default [None]; a class
    without such a field has no such attribute. *)
Inductive member_value : Type := the_member | py_None.

Definition has_attribute (t : pytype) (attr : string) : Py bool :=
  λ st, (Returned (class_has_attr (S (length (heap st))) (heap st) t attr), st).

Definition member (g attr : string) : Py member_value :=
  x <~ global g ;;
  match x with
  | None => ret the_member
  | Some t =>
      found <~ has_attribute t attr ;;
      if found then ret py_None else raise (AttributeError attr)
  end.

(** [v(...)], [v[...]] and [v.__name__] *)
Definition call_member (v : member_value) : Py unit :=
  match v with
  | the_member => ret tt
  | py_None => raise (TypeError "'NoneType' object is not callable")
  end.

Definition subscript_member (v : member_value) : Py unit :=
  match v with
  | the_member => ret tt
  | py_None => raise (TypeError "'NoneType' object is not subscriptable")
  end.

Definition name_of_member (v : member_value) : Py unit :=
  match v with
  | the_member => ret tt
  | py_None => raise (AttributeError "__name__")
  end.

(** ** Classes *)

(** [type(name, (object,), {})]: [type] is called, it refuses a name
    with a null character in it, and [object] is whatever that name is
    bound to.  The result is the base of the new class. *)
Definition has_null (s : string) : bool :=
  existsb (λ c, Ascii.eqb c zero) (list_ascii_of_string s).

Definition py_type (name : string) : Py (option pytype) :=
  call_builtin "type" ;;;
  if has_null name
  then raise (ValueError "type name must not contain null characters")
  else global "object".

Definition with_base (base : option pytype) (c : classobj) : classobj :=
  match base with
  | None => c
  | Some _ => mk_class (c_name c) (c_annotations c) (c_attrs c) (c_description c) base
  end.

(** The finished class gets the next free address. *)
Definition new_class (c : classobj) : Py pytype :=
  λ st, (Returned (py_dyn (length (heap st))),
         mk_state (inputTypeGQLMapper st) (module_attrs st) (heap st ++ [c])).

Definition getattr_name (t : pytype) : Py string :=
  λ st, match dunder_name (heap st) t with
        | Some n => (Returned n, st)
        | None => (Raised (AttributeError "__name__"), st)
        end.

(** [setattr(this, n, r)] with [this = sys.modules[__name__]]: an
    existing attribute is replaced. *)
Definition setattr_this (n : string) (r : pytype) : Py unit :=
  λ st, (Returned tt,
         mk_state (inputTypeGQLMapper st) (<[n := r]> (module_attrs st)) (heap st)).

(** [inputTypeGQLMapper.get(k, None)] *)
Definition mapper_get (k : pytype) : Py (option pytype) :=
  get <~ member "inputTypeGQLMapper" "get" ;;
  call_member get ;;;
  λ st, (Returned (inputTypeGQLMapper st !! k), st).

(** [inputTypeGQLMapper[k] = v]: a class bound to the name has no item
    assignment. *)
Definition mapper_set (k v : pytype) : Py unit :=
  x <~ global "inputTypeGQLMapper" ;;
  match x with
  | None =>
      λ st, (Returned tt,
             mk_state (<[k := v]> (inputTypeGQLMapper st)) (module_attrs st) (heap st))
  | Some _ => raise (TypeError "'type' object does not support item assignment")
  end.

(** ** Names that can be parameters *)

(** [keyword.kwlist], and [__debug__], which cannot be assigned to. *)
Definition keywords : list string :=
  ["False"; "None"; "True"; "and"; "as"; "assert"; "async"; "await"; "break";
   "class"; "continue"; "def"; "del"; "elif"; "else"; "except"; "finally";
   "for"; "from"; "global"; "if"; "import"; "in"; "is"; "lambda"; "nonlocal";
   "not"; "or"; "pass"; "raise"; "return"; "try"; "while"; "with"; "yield";
   "__debug__"].

(** Letters and the underscore; a byte above 127 belongs to a character
    outside ASCII and is taken as a letter. *)
Definition identifier_start (c : ascii) : bool :=
  let n := nat_of_ascii c in
  ((65 <=? n) && (n <=? 90) || (97 <=? n) && (n <=? 122) || (n =? 95) || (128 <=? n))%nat.

Definition identifier_continue (c : ascii) : bool :=
  let n := nat_of_ascii c in
  (identifier_start c || (48 <=? n) && (n <=? 57))%nat.

(** [str.isidentifier] *)
Definition isidentifier (s : string) : bool :=
  match s with
  | EmptyString => false
  | String c s' => identifier_start c && forallb identifier_continue (list_ascii_of_string s')
  end.

(** A name that can stand as a parameter in a [def]. *)
Definition parameter_name (s : string) : bool :=
  isidentifier s && negb (bool_decide (s ∈ keywords)).

(** ** [createInputs] (utils.py, lines 12-130) *)

(** The decorated dataclass, as far as the decorator reads it:
    [cls.__name__] and [cls.__annotations__]. *)
Record pycls : Type := mk_cls {
  cls_name : string;
  cls_annotations : list (string * pytype)
}.

Fixpoint zip3 {A B C} (la : list A) (lb : list B) (lc : list C) : list (A * B * C) :=
  match la, lb, lc with
  | a :: la', b :: lb', c :: lc' => (a, b, c) :: zip3 la' lb' lc'
  | _, _, _ => []
  end.

Definition comparison_ops : list string := ["_eq"; "_le"; "_lt"; "_ge"; "_gt"].

(** [for op in ...: setattr(result, op, strawberry.field(name=op, ...))] *)
Definition setattr_fields (description : string) (ops : list string)
    : list (string * StrawberryField) :=
  dict_update [] (map (λ op, (op, strawberry_field op description default_None)) ops).

(** The class built on lines 39-45 for a type without a mapper entry,
    with the description [strawberry.input] records on it, when [object]
    is the builtin. *)
Definition custom_input_class (field name : string) (baseType : pytype) : classobj :=
  mk_class name
    (dict_update [] (map (λ op, (op, A_Optional (A_type baseType))) comparison_ops))
    (setattr_fields op_description comparison_ops)
    (Some ("Expression on attribute '" +:+ field +:+ "'. Only one constrain allowed."))
    None.

(** [strawberry.input(cls, description=...)] makes the class a
    keyword-only dataclass and returns it with the description recorded
    on it.  The [__init__] of a dataclass is compiled from text that has
    one parameter per annotated name, so a name that is a keyword or no
    identifier is a syntax error. *)
Definition with_description (c : classobj) (description : string) : classobj :=
  mk_class (c_name c) (c_annotations c) (c_attrs c) (Some description) (c_base c).

Definition strawberry_input (c : classobj) (description : string) : Py pytype :=
  if forallb parameter_name (dict_keys (c_annotations c))
  then new_class (with_description c description)
  else raise (SyntaxError "invalid syntax").

(** Lines 29-49, with each global in the order in which the line reads
    it.  The comprehension of line 41 and the loop of lines 43-44 read
    the same globals at each of their five turns; they are read once
    here. *)
Definition createCustomInput (field name : string) (baseType : pytype) : Py pytype :=
  result <~ mapper_get baseType ;;                                  (* line 30 *)
  match result with
  | None =>
      call_builtin "print" ;;;                                      (* line 32 *)
      n <~ getattr_name baseType ;;                                 (* line 33 *)
      call_builtin "print" ;;;
      annotated <~ member "typing" "Annotated" ;;                   (* line 34 *)
      name_of_member annotated ;;;
      if decide (n = "Annotated") then
        call_builtin "print" ;;;                                    (* line 35 *)
        ret baseType
      else
        info <~ member "logging" "info" ;;                          (* line 37 *)
        call_member info ;;;
        call_builtin "print" ;;;                                    (* line 38 *)
        base <~ py_type name ;;                                     (* line 39 *)
        optional <~ member "typing" "Optional" ;;                   (* line 41 *)
        subscript_member optional ;;;
        field_ <~ member "strawberry" "field" ;;                    (* line 44 *)
        call_member field_ ;;;
        call_builtin "setattr" ;;;
        input <~ member "strawberry" "input" ;;                     (* line 45 *)
        call_member input ;;;
        strawberry_input (with_base base (custom_input_class field name baseType))
          ("Expression on attribute '" +:+ field +:+ "'. Only one constrain allowed.")
  | Some result =>
      info <~ member "logging" "info" ;;                            (* line 47 *)
      call_member info ;;;
      call_builtin "print" ;;;                                      (* line 48 *)
      ret result
  end.

(** The classes that [createOr], [createAnd] and [createWhereOp] build
    when [object] is the builtin: the combinator entries come first and
    [**inputTypesDict] is merged over them. *)
Definition combinator_class (name : string) (combinators inputTypesDict : list (string * annot))
    : classobj :=
  let anotations := dict_update combinators inputTypesDict in
  mk_class name anotations (setattr_fields "Filter method" (dict_keys anotations)) None None.

Definition createOr (orName andName : string) (inputTypesDict : list (string * annot)) : classobj :=
  combinator_class orName
    [("_and", A_Optional (A_List (A_fwd andName)))] inputTypesDict.

Definition createAnd (andName orName : string) (inputTypesDict : list (string * annot)) : classobj :=
  combinator_class andName
    [("_or", A_Optional (A_List (A_fwd orName)))] inputTypesDict.

Definition createWhereOp (whereName : string) (orOp andOp : pytype)
    (inputTypesDict : list (string * annot)) : classobj :=
  combinator_class whereName
    [("_or", A_Optional (A_List (A_type orOp)));
     ("_and", A_Optional (A_List (A_type andOp)))] inputTypesDict.

(** [typing.Optional[typing.List[x]]]: both members are looked up
    before either is subscripted.  When [x] is a string, [typing.List]
    makes a forward reference of it, which compiles the string as an
    expression; a string that is no identifier is taken not to
    compile.  [forward] is that string, or [None] when [x] is a
    class. *)
Definition forward_reference (forward : option string) : Py unit :=
  match forward with
  | Some s =>
      if isidentifier s then ret tt
      else raise (SyntaxError "Forward reference must be an expression")
  | None => ret tt
  end.

Definition typing_Optional_List (forward : option string) : Py unit :=
  optional <~ member "typing" "Optional" ;;
  list_ <~ member "typing" "List" ;;
  subscript_member list_ ;;;
  forward_reference forward ;;;
  subscript_member optional.

Fixpoint each {A} (body : A → Py unit) (l : list A) : Py unit :=
  match l with
  | [] => ret tt
  | a :: l' => body a ;;; each body l'
  end.

(** Running one of the three bodies: [type(name, (object,), {})], the
    combinator entries of the annotations, whose arguments are
    [combinators], and the [setattr] loop, which has at least the
    combinators to go through.  [c] is the class as it is built over the
    builtin [object]. *)
Definition class_body (combinators : list (option string)) (c : classobj) : Py classobj :=
  base <~ py_type (c_name c) ;;
  each typing_Optional_List combinators ;;;
  field_ <~ member "strawberry" "field" ;;
  call_member field_ ;;;
  call_builtin "setattr" ;;;
  ret (with_base base c).

(** [strawberry.input(createOr(), description=...)] and its like on
    lines 80, 97 and 116: [strawberry.input] is looked up, the body
    runs, and then the call is made. *)
Definition decorated (combinators : list (option string)) (c : classobj)
    (description : string) : Py pytype :=
  input <~ member "strawberry" "input" ;;
  c' <~ class_body combinators c ;;
  call_member input ;;;
  strawberry_input c' description.

(** Line 122: [this = sys.modules[__name__]]. *)
Definition this_module : Py unit :=
  modules <~ member "sys" "modules" ;;
  name <~ global "__name__" ;;
  subscript_member modules ;;;
  match name with
  | None => ret tt
  | Some t => raise (KeyError t)
  end.

(** Lines 123-124: [for r in result: setattr(this, r.__name__, r)].
    [setattr] is looked up anew at every turn. *)
Fixpoint register (result : list pytype) : Py unit :=
  match result with
  | [] => ret tt
  | r :: rest =>
      n <~ getattr_name r ;;
      call_builtin "setattr" ;;;
      setattr_this n r ;;;
      register rest
  end.

Definition fieldNames (cls : pycls) : list string := map fst (cls_annotations cls).
Definition opNames (cls : pycls) : list string :=
  map (λ field_name, cls_name cls +:+ "_" +:+ field_name) (fieldNames cls).
Definition types (cls : pycls) : list pytype := map snd (cls_annotations cls).

Definition inputTypesDict_of (names : list string) (inputTypes : list pytype)
    : list (string * annot) :=
  dict_update [] (zip names (map (λ inputType, A_Optional (A_type inputType)) inputTypes)).

Definition whereName (cls : pycls) : string := cls_name cls.
Definition orName (cls : pycls) : string := cls_name cls +:+ "_or".
Definition andName (cls : pycls) : string := cls_name cls +:+ "_and".

Definition createInputs (cls : pycls) : Py pytype :=
  let clsname := cls_name cls in
  call_builtin "print" ;;;                                          (* line 15 *)
  call_builtin "zip" ;;;                                            (* line 54 *)
  inputTypes <~ mapM (λ '(field, name, baseType), createCustomInput field name baseType)
                  (zip3 (fieldNames cls) (opNames cls) (types cls)) ;;
  call_builtin "zip" ;;;                                            (* line 60 *)
  for_each (zip (fieldNames cls) inputTypes)                        (* line 59 *)
    (optional <~ member "typing" "Optional" ;; subscript_member optional) ;;;
  let inputTypesDict := inputTypesDict_of (fieldNames cls) inputTypes in
  orOp <~ decorated [Some (andName cls)]
            (createOr (orName cls) (andName cls) inputTypesDict)
            ("Or operator definition on " +:+ clsname) ;;
  andOp <~ decorated [Some (orName cls)]
             (createAnd (andName cls) (orName cls) inputTypesDict)
             ("And operator definition on " +:+ clsname) ;;
  whereOp <~ decorated [None; None]
               (createWhereOp (whereName cls) orOp andOp inputTypesDict)
               ("Operators definition on " +:+ clsname) ;;
  this_module ;;;                                                   (* line 122 *)
  register (whereOp :: andOp :: orOp :: inputTypes) ;;;
  mapper_set whereOp whereOp ;;;                                    (* line 129 *)
  ret whereOp.

(** * Vocabulary of the statements *)

(** ** Well-formed states *)

(** A reference to a run-time class points into the heap. *)
Definition alive (h : list classobj) (t : pytype) : Prop :=
  match t with py_dyn a => (a < length h)%nat | _ => True end.

(** The registrations of lines 175-179. *)
Definition scalar_filter (k : pytype) : option pytype :=
  match k with
  | py_UUID => Some UuidFilter
  | py_int => Some IntFilter
  | py_str => Some StrFilter
  | py_datetime => Some DatetimeFilter
  | py_bool => Some BoolFilter
  | _ => None
  end.

(** The mapper holds the five scalar registrations and, from line 129,
    generated where types mapped to themselves. *)
Definition wf (st : state) : Prop :=
  ∀ k v, inputTypeGQLMapper st !! k = Some v →
    scalar_filter k = Some v ∨
    ∃ a, k = py_dyn a ∧ v = py_dyn a ∧ (a < length (heap st))%nat.

(** ** The outcome of resolving the fields *)

(** How a field's type was found, seen from the state [st] before the
    fields are resolved and the heap [h'] after. *)
Inductive resolved (st : state) (h' : list classobj)
    : string * string * pytype → pytype → Prop :=
  | resolved_cached field name k t :
      inputTypeGQLMapper st !! k = Some t →
      resolved st h' (field, name, k) t
  | resolved_lazy field name k :
      inputTypeGQLMapper st !! k = None →
      dunder_name (heap st) k = Some "Annotated" →
      resolved st h' (field, name, k) k
  | resolved_new field name k n (a : nat) :
      inputTypeGQLMapper st !! k = None →
      dunder_name (heap st) k = Some n → n ≠ "Annotated" →
      (length (heap st) ≤ a)%nat →
      h' !! a = Some (with_base (module_attrs st !! "object")
                        (custom_input_class field name k)) →
      resolved st h' (field, name, k) (py_dyn a).


(** The body of the comprehension on lines 52-55. *)
Definition resolve_field (arg : string * string * pytype) : Py pytype :=
  let '(field, name, baseType) := arg in createCustomInput field name baseType.

(** Mapper and namespace unchanged, heap extended. *)
Definition same_tables (st st' : state) : Prop :=
  inputTypeGQLMapper st' = inputTypeGQLMapper st ∧
  module_attrs st' = module_attrs st ∧
  ∃ new, heap st' = heap st ++ new.

(** ** Writes to the module namespace *)

(** A sequence of [setattr] calls on the module. *)
Definition apply_writes (ns : gmap string pytype) (ws : list (string * pytype))
    : gmap string pytype :=
  foldl (λ acc w, <[w.1 := w.2]> acc) ns ws.

(** The [setattr] calls the loop of lines 123-124 gets to make while
    [setattr] is the builtin: it stops at the first object without a
    [__name__]. *)
Fixpoint register_writes (h : list classobj) (rs : list pytype) : list (string * pytype) :=
  match rs with
  | [] => []
  | r :: rest =>
      match dunder_name h r with
      | Some n => (n, r) :: register_writes h rest
      | None => []
      end
  end.

(** ** Globals that are as at import *)





(** None of [names] has been rebound. *)
Definition intact (names : list string) (st : state) : Prop :=
  Forall (λ g, module_attrs st !! g = None) names.





(** ** What a call leaves behind *)

(** [zip(fieldNames, opNames, types)] *)
Definition field_args (cls : pycls) : list (string * string * pytype) :=
  zip3 (fieldNames cls) (opNames cls) (types cls).

(** The three classes a call leaves on the heap, given the field types
    [ts] and the address [o] at which the first of them is put. *)
Definition OrType (cls : pycls) (ts : list pytype) : classobj :=
  with_description
    (createOr (orName cls) (andName cls) (inputTypesDict_of (fieldNames cls) ts))
    ("Or operator definition on " +:+ cls_name cls).

Definition AndType (cls : pycls) (ts : list pytype) : classobj :=
  with_description
    (createAnd (andName cls) (orName cls) (inputTypesDict_of (fieldNames cls) ts))
    ("And operator definition on " +:+ cls_name cls).

Definition WhereType (cls : pycls) (ts : list pytype) (o : nat) : classobj :=
  with_description
    (createWhereOp (whereName cls) (py_dyn o) (py_dyn (S o))
       (inputTypesDict_of (fieldNames cls) ts))
    ("Operators definition on " +:+ cls_name cls).

(** The classes of the heap by the function that built them. *)
Definition where_class (c : classobj) : Prop :=
  ∃ cls ts o base, c = with_base base (WhereType cls ts o).

Definition combinator_only_class (c : classobj) : Prop :=
  ∃ cls ts base, c = with_base base (OrType cls ts) ∨ c = with_base base (AndType cls ts).

Definition operator_class (c : classobj) : Prop :=
  ∃ field name k base, c = with_base base (custom_input_class field name k).

(** Every key of the mapper that is not one of the five scalar kinds is
    a where type on the heap, mapped to itself. *)
Definition mapper_shape (st : state) : Prop :=
  ∀ k v, inputTypeGQLMapper st !! k = Some v →
    scalar_filter k = Some v
    ∨ ∃ a c, k = py_dyn a ∧ v = py_dyn a ∧ heap st !! a = Some c ∧ where_class c.

(** [result] of line 121. *)
Definition registered_types (ts : list pytype) (o : nat) : list pytype :=
  py_dyn (S (S o)) :: py_dyn (S o) :: py_dyn o :: ts.

(** ** Slots, sharing, calls *)

(** Closed decidable side conditions are settled by evaluation. *)
Ltac by_compute := apply (bool_decide_unpack _); vm_compute; exact I.

(** A conjunction of closed equations, each settled by evaluation. *)
Ltac by_evaluation :=
  cbv zeta; repeat (split; [vm_compute; reflexivity|]); vm_compute; reflexivity.

(** The slots a class declares as optional inputs: annotated
    [Optional[...]] and given the default [None].  A class whose base is
    not the builtin [object] has its base's slots besides. *)
Definition is_optional (c : classobj) (op : string) : bool :=
  match dict_get (c_annotations c) op, dict_get (c_attrs c) op with
  | Some (A_Optional _), Some (strawberry_field _ _ default_None) => true
  | _, _ => false
  end.

Definition optional_slots (c : classobj) : list string :=
  List.filter (is_optional c) (dict_keys (c_annotations c)).

(** A kind whose field type does not depend on the call: it has a
    mapper entry, or it is a lazy reference and is passed through. *)
Definition reused (st : state) (k t : pytype) : Prop :=
  inputTypeGQLMapper st !! k = Some t
  ∨ (inputTypeGQLMapper st !! k = None ∧ t = k ∧
     ∀ h, dunder_name h k = Some "Annotated").

(** Any number of decorator calls and single field resolutions. *)
Inductive calls : state → state → Prop :=
  | calls_refl st : calls st st
  | calls_createInputs st cls o st1 st2 :
      createInputs cls st = (o, st1) → calls st1 st2 → calls st st2
  | calls_createCustomInput st field name k o st1 st2 :
      createCustomInput field name k st = (o, st1) → calls st1 st2 → calls st st2.

(** A kind that refers to another class's where type: a lazy
    [Annotated[...]] reference, or the where type an earlier call
    returned. *)
Definition nested_filter_ref (st : state) (k : pytype) : Prop :=
  (∃ target module, k = py_Annotated target module)
  ∨ (∃ cls0 st0 st1,
       wf st0 ∧ createInputs cls0 st0 = (Returned k, st1) ∧ calls st1 st).


(** Whether lines 37-45 run for a field of kind [k]: no mapper entry,
    and a [__name__] other than ["Annotated"]. *)
Definition builds_class (st : state) (k : pytype) : bool :=
  match inputTypeGQLMapper st !! k with
  | Some _ => false
  | None =>
      match dunder_name (heap st) k with
      | Some n => if decide (n = "Annotated") then false else true
      | None => false
      end
  end.

(** ** Classes of the repository used as instances *)

(** groupTypeGQLModel.py, lines 63-67. *)
Definition GroupTypeInputWhereFilter : pycls :=
  mk_cls "GroupTypeInputWhereFilter" [("name", py_str); ("valid", py_bool)].

(** membershipGQLModel.py, lines 86-93. *)
Definition MembershipInputWhereFilter : pycls :=
  mk_cls "MembershipInputWhereFilter"
    [("valid", py_bool);
     ("group", py_Annotated "GroupInputWhereFilter" ".groupGQLModel");
     ("user", py_Annotated "UserInputWhereFilter" ".userGQLModel")].

(** groupGQLModel.py, lines 111-117.  [memberships:
    MembershipInputWhereFilter] names the class the decorator put in
    place of the dataclass: the where type at address 2 when the
    membership module is the first to be decorated. *)
Definition GroupInputWhereFilter : pycls :=
  mk_cls "GroupInputWhereFilter"
    [("name", py_str); ("valid", py_bool); ("memberships", py_dyn 2)].

(** * Entity modules: reference resolution and mutations *)

Module Resolvers.

(** [uuid.UUID] values by their 128-bit integer; [datetime] values by a
    timestamp. *)
Definition UUID : Type := N.
Definition datetime : Type := Z.

(** The classes deriving from [BaseGQLModel], and the base class. *)
Inductive model : Type :=
  | BaseGQLModel
  | GroupGQLModel
  | GroupTypeGQLModel
  | UserGQLModel
  | MembershipGQLModel
  | RoleCategoryGQLModel.

(** The attributes of [info.context["all"]] the modules use. *)
Inductive loader_name : Type :=
  | groups | grouptypes | users | memberships | rolecategories.

(** [cls.getLoader(info)]: the base class has [pass] for a body. *)
Definition getLoader (cls : model) : option loader_name :=
  match cls with
  | BaseGQLModel => None
  | GroupGQLModel => Some groups
  | GroupTypeGQLModel => Some grouptypes
  | UserGQLModel => Some users
  | MembershipGQLModel => Some memberships
  | RoleCategoryGQLModel => Some rolecategories
  end.

(** A row handed back by a loader: the attributes the handlers read,
    and the [__strawberry_definition__] that [resolve_reference] sets. *)
Record row : Type := mk_row {
  row_id : UUID;
  row_name : string;
  row_strawberry_definition : option model
}.

(** ** Mutation inputs *)

Record GroupUpdateGQLModel : Type := {
  gu_id : UUID; gu_lastchange : datetime; gu_name : option string;
  gu_grouptype_id : option UUID; gu_mastergroup_id : option UUID;
  gu_valid : option bool
}.

Record GroupInsertGQLModel : Type := {
  gi_name : string; gi_id : option UUID; gi_grouptype_id : option UUID;
  gi_mastergroup_id : option UUID; gi_valid : option bool
}.

Record GroupTypeUpdateGQLModel : Type := {
  gtu_id : UUID; gtu_lastchange : datetime; gtu_name : option string;
  gtu_name_en : option string
}.

Record GroupTypeInsertGQLModel : Type := {
  gti_id : option UUID; gti_name : option string; gti_name_en : option string
}.

Record UserUpdateGQLModel : Type := {
  uu_id : UUID; uu_lastchange : datetime; uu_name : option string;
  uu_surname : option string; uu_email : option string; uu_valid : option bool
}.

Record UserInsertGQLModel : Type := {
  ui_id : option UUID; ui_name : option string; ui_surname : option string;
  ui_email : option string; ui_valid : option bool
}.

Record MembershipUpdateGQLModel : Type := {
  mu_id : UUID; mu_lastchange : datetime; mu_valid : option bool;
  mu_startdate : option datetime; mu_enddate : option datetime
}.

Record MembershipInsertGQLModel : Type := {
  mi_user_id : UUID; mi_group_id : UUID; mi_id : option UUID;
  mi_valid : option bool; mi_startdate : option datetime;
  mi_enddate : option datetime
}.

Record RoleCategoryUpdateGQLModel : Type := {
  rcu_id : UUID; rcu_lastchange : datetime; rcu_name : option string;
  rcu_name_en : option string
}.

Record RoleCategoryInsertGQLModel : Type := {
  rci_id : option UUID; rci_name : option string; rci_name_en : option string
}.

Inductive record : Type :=
  | GroupUpdate (r : GroupUpdateGQLModel)
  | GroupInsert (r : GroupInsertGQLModel)
  | GroupTypeUpdate (r : GroupTypeUpdateGQLModel)
  | GroupTypeInsert (r : GroupTypeInsertGQLModel)
  | UserUpdate (r : UserUpdateGQLModel)
  | UserInsert (r : UserInsertGQLModel)
  | MembershipUpdate (r : MembershipUpdateGQLModel)
  | MembershipInsert (r : MembershipInsertGQLModel)
  | RoleCategoryUpdate (r : RoleCategoryUpdateGQLModel)
  | RoleCategoryInsert (r : RoleCategoryInsertGQLModel).

(** The [...ResultGQLModel] classes: [id] and [msg], both [None] until
    assigned. *)
Record ResultGQLModel : Type := mk_result {
  id : option UUID;
  msg : option string
}.

(** ** Coroutines that await a loader *)

Inductive loader_call : Type :=
  | load (l : loader_name) (key : UUID)
  | update (l : loader_name) (r : record)
  | insert (l : loader_name) (r : record).

(** A handler runs until it returns, raises, or awaits a loader method;
    the loader answers with a row or with [None]. *)
Inductive prog (R : Type) : Type :=
  | Ret (r : R)
  | Raise (e : pyexn)
  | Await (c : loader_call) (k : option row → prog R).
Arguments Ret {R} r.
Arguments Raise {R} e.
Arguments Await {R} c k.

Fixpoint pbind {A B} (p : prog A) (f : A → prog B) : prog B :=
  match p with
  | Ret a => f a
  | Raise e => Raise e
  | Await c k => Await c (λ answer, pbind (k answer) f)
  end.

Declare Scope prog_scope.
Delimit Scope prog_scope with prog.
Notation "x <- p ;; q" := (pbind p (λ x, q))
  (at level 100, p at next level, right associativity) : prog_scope.
Local Open Scope prog_scope.

Definition await (c : loader_call) : prog (option row) := Await c Ret.

(** A loader as the handlers meet it: its answer may depend on the
    calls made so far. *)
Definition loader : Type := list loader_call → loader_call → option row.

(** Running a handler against a loader: the outcome and the calls made,
    in order. *)
Fixpoint run_from {R} (ld : loader) (history : list loader_call) (p : prog R)
    : outcome R * list loader_call :=
  match p with
  | Ret r => (Returned r, history)
  | Raise e => (Raised e, history)
  | Await c k => run_from ld (history ++ [c]) (k (ld history c))
  end.

Definition run {R} (ld : loader) (p : prog R) : outcome R * list loader_call :=
  run_from ld [] p.

(** [r.id] and [r.name], which raise on [None]. *)
Definition getattr_id (r : option row) : prog UUID :=
  match r with
  | Some r => Ret (row_id r)
  | None => Raise (AttributeError "id")
  end.

Definition getattr_name (r : option row) : prog string :=
  match r with
  | Some r => Ret (row_name r)
  | None => Raise (AttributeError "name")
  end.

(** ** [BaseGQLModel.resolve_reference] (BaseGQLModel.py, lines 17-26) *)

Inductive id_argument : Type :=
  | id_None
  | id_str (s : string)
  | id_UUID (u : UUID).

Definition set_strawberry_definition (r : row) (cls : model) : row :=
  mk_row (row_id r) (row_name r) (Some cls).

Section ResolveReference.

(** [uuid.UUID(s)] belongs to the Python library: it yields a UUID or
    raises [ValueError]. *)
Variable UUID_of_str : string → option UUID.

(** Lines 21 and 23-26, once [id] is a UUID. *)
Definition load_reference (cls : model) (id : UUID) : prog (option row) :=
  match getLoader cls with
  | None => Raise (AttributeError "load")
  | Some loader =>
      result <- await (load loader id) ;;
      match result with
      | Some r => Ret (Some (set_strawberry_definition r cls))
      | None => Ret None
      end
  end.

Definition resolve_reference (cls : model) (id : id_argument) : prog (option row) :=
  match id with
  | id_None => Ret None
  | id_str s =>
      match UUID_of_str s with
      | Some u => load_reference cls u
      | None => Raise (ValueError "badly formed hexadecimal UUID string")
      end
  | id_UUID u => load_reference cls u
  end.

End ResolveReference.

(** ** Mutation handlers *)

(** groupGQLModel.py, lines 220-228. *)
Definition group_update (group : GroupUpdateGQLModel) : prog ResultGQLModel :=
  updatedrow <- await (update groups (GroupUpdate group)) ;;
  match updatedrow with
  | None => Ret (mk_result (Some (gu_id group)) (Some "fail"))
  | Some _ => Ret (mk_result (Some (gu_id group)) (Some "ok"))
  end.

(** groupGQLModel.py, lines 234-246; line 238 prints [updatedrow.id]
    and [updatedrow.name]. *)
Definition group_insert (group : GroupInsertGQLModel) : prog ResultGQLModel :=
  updatedrow <- await (insert groups (GroupInsert group)) ;;
  printed_id <- getattr_id updatedrow ;;
  printed_name <- getattr_name updatedrow ;;
  let result := mk_result None None in
  row_id <- getattr_id updatedrow ;;
  let result := mk_result (Some row_id) (msg result) in
  let result := mk_result (id result) (Some "ok") in
  let result :=
    match updatedrow with
    | None => mk_result (id result) (Some "fail")
    | Some _ => result
    end in
  Ret result.

(** groupTypeGQLModel.py, lines 127-137. *)
Definition group_type_update (group_type : GroupTypeUpdateGQLModel) : prog ResultGQLModel :=
  updatedrow <- await (update grouptypes (GroupTypeUpdate group_type)) ;;
  let result := mk_result None None in
  let result := mk_result (id result) (Some "ok") in
  let result := mk_result (Some (gtu_id group_type)) (msg result) in
  let result :=
    match updatedrow with
    | None => mk_result (id result) (Some "fail")
    | Some _ => result
    end in
  Ret result.

(** groupTypeGQLModel.py, lines 143-154. *)
Definition group_type_insert (group_type : GroupTypeInsertGQLModel) : prog ResultGQLModel :=
  updatedrow <- await (insert grouptypes (GroupTypeInsert group_type)) ;;
  let result := mk_result None None in
  row_id <- getattr_id updatedrow ;;
  let result := mk_result (Some row_id) (msg result) in
  let result := mk_result (id result) (Some "ok") in
  let result :=
    match updatedrow with
    | None => mk_result (id result) (Some "fail")
    | Some _ => result
    end in
  Ret result.

(** userGQLModel.py, lines 223-238. *)
Definition user_update (user : UserUpdateGQLModel) : prog ResultGQLModel :=
  updatedrow <- await (update users (UserUpdate user)) ;;
  let result := mk_result None None in
  let result := mk_result (Some (uu_id user)) (msg result) in
  let result :=
    match updatedrow with
    | None => mk_result (id result) (Some "fail")
    | Some _ => mk_result (id result) (Some "ok")
    end in
  Ret result.

(** userGQLModel.py, lines 241-250. *)
Definition user_insert (user : UserInsertGQLModel) : prog ResultGQLModel :=
  row <- await (insert users (UserInsert user)) ;;
  let result := mk_result None None in
  row_id <- getattr_id row ;;
  let result := mk_result (Some row_id) (msg result) in
  let result := mk_result (id result) (Some "ok") in
  Ret result.

(** membershipGQLModel.py, lines 135-150. *)
Definition membership_update (membership : MembershipUpdateGQLModel) : prog ResultGQLModel :=
  updatedrow <- await (update memberships (MembershipUpdate membership)) ;;
  let result := mk_result None None in
  let result := mk_result (id result) (Some "ok") in
  let result := mk_result (Some (mu_id membership)) (msg result) in
  let result :=
    match updatedrow with
    | None => mk_result (id result) (Some "fail")
    | Some _ => result
    end in
  Ret result.

(** membershipGQLModel.py, lines 154-166. *)
Definition membership_insert (membership : MembershipInsertGQLModel) : prog ResultGQLModel :=
  row <- await (insert memberships (MembershipInsert membership)) ;;
  let result := mk_result None None in
  let result := mk_result (id result) (Some "ok") in
  row_id <- getattr_id row ;;
  let result := mk_result (Some row_id) (msg result) in
  Ret result.

(** roleCategoryGQLModel.py, lines 110-128. *)
Definition role_category_update (role_category : RoleCategoryUpdateGQLModel)
    : prog ResultGQLModel :=
  row <- await (update rolecategories (RoleCategoryUpdate role_category)) ;;
  let result := mk_result None None in
  let result := mk_result (id result) (Some "ok") in
  let result := mk_result (Some (rcu_id role_category)) (msg result) in
  let result :=
    match row with
    | None => mk_result (id result) (Some "fail")
    | Some r => mk_result (Some (row_id r)) (msg result)
    end in
  Ret result.

(** roleCategoryGQLModel.py, lines 132-145. *)
Definition role_category_insert (role_category : RoleCategoryInsertGQLModel)
    : prog ResultGQLModel :=
  row <- await (insert rolecategories (RoleCategoryInsert role_category)) ;;
  let result := mk_result None None in
  let result := mk_result (id result) (Some "ok") in
  row_id <- getattr_id row ;;
  let result := mk_result (Some row_id) (msg result) in
  Ret result.

(** ** Vocabulary of the statements *)

(** What [resolve_reference] hands back for a loader answer: the row
    the loader gave, carrying the class's strawberry definition, or
    [None]. *)
Definition resolved_entity (cls : model) (answer : option row) : option row :=
  match answer with
  | Some r => Some (set_strawberry_definition r cls)
  | None => None
  end.

Definition sample_loader : loader :=
  λ history c,
    match c with
    | load groups 7%N => Some (mk_row 7%N "CS" None)
    | _ => None
    end.

Definition sample_UUID_of_str (s : string) : option UUID :=
  if decide (s = "00000000-0000-0000-0000-000000000007") then Some 7%N else None.

Definition verdict (answer : option row) : string :=
  match answer with Some _ => "ok" | None => "fail" end.

Definition silent_loader : loader := λ history c, None.

Definition sample_membership : MembershipInsertGQLModel :=
  Build_MembershipInsertGQLModel 1%N 2%N None (Some true) None None.

(** ** The entity field of the result envelopes *)

(** [self.id] of an envelope as the argument of [resolve_reference]. *)
Definition id_of_envelope (self : ResultGQLModel) : id_argument :=
  match id self with
  | Some u => id_UUID u
  | None => id_None
  end.

Section ResultResolvers.

Variable UUID_of_str : string → option UUID.

(** groupGQLModel.py, lines 209-214; line 213 prints [result.id] and
    [result.name]. *)
Definition GroupResultGQLModel_group (self : ResultGQLModel) : prog (option row) :=
  result <- resolve_reference UUID_of_str GroupGQLModel (id_of_envelope self) ;;
  printed_id <- getattr_id result ;;
  printed_name <- getattr_name result ;;
  Ret result.

(** groupTypeGQLModel.py, lines 118-121. *)
Definition GroupTypeResultGQLModel_group_type (self : ResultGQLModel)
    : prog (option row) :=
  result <- resolve_reference UUID_of_str GroupTypeGQLModel (id_of_envelope self) ;;
  Ret result.

(** userGQLModel.py, lines 215-219. *)
Definition UserResultGQLModel_user (self : ResultGQLModel) : prog (option row) :=
  result <- resolve_reference UUID_of_str UserGQLModel (id_of_envelope self) ;;
  Ret result.

(** membershipGQLModel.py, lines 128-131. *)
Definition MembershipResultGQLModel_membership (self : ResultGQLModel)
    : prog (option row) :=
  result <- resolve_reference UUID_of_str MembershipGQLModel (id_of_envelope self) ;;
  Ret result.

(** roleCategoryGQLModel.py, lines 103-106. *)
Definition RoleCategoryResultGQLModel_role_category (self : ResultGQLModel)
    : prog (option row) :=
  result <- resolve_reference UUID_of_str RoleCategoryGQLModel (id_of_envelope self) ;;
  Ret result.

End ResultResolvers.

End Resolvers.

(** * Entity modules: handlers that pass rows and statements *)

Module Queries.
Import Resolvers.

(** ** Rows as objects, select statements *)

(** Attribute values of a loaded row. *)
Inductive value : Type :=
  | v_None
  | v_UUID (u : UUID)
  | v_str (s : string)
  | v_bool (b : bool)
  | v_datetime (d : datetime).

(** A loaded row as a Python object: its attributes by name.
    Assigning to an attribute inserts or replaces it. *)
Abbreviation entity := (gmap string value).

(** Column expressions: [model.name], a string constant, and [+]. *)
Inductive sqlexpr : Type :=
  | model_attr (l : loader_name) (name : string)
  | str_const (s : string)
  | sql_add (a b : sqlexpr).

(** The statements the handlers build: [loader.getSelectStatement()],
    [stmt.where(e.like(pattern))] and [stmt.filter_by(attr=v)]. *)
Inductive statement : Type :=
  | getSelectStatement (l : loader_name)
  | where_like (s : statement) (e : sqlexpr) (pattern : string)
  | filter_by (s : statement) (attr : string) (v : value).

(** ** Coroutines that await a loader *)

Inductive loader_method : Type :=
  | load_row (l : loader_name) (key : UUID)
  | update_row (l : loader_name) (r : entity)
  | execute_select (l : loader_name) (stmt : statement).

(** [load] and [update] answer with a row or [None], [execute_select]
    with a sequence of rows. *)
Definition answer (c : loader_method) : Type :=
  match c with
  | execute_select _ _ => list entity
  | _ => option entity
  end.

Inductive task (R : Type) : Type :=
  | Done (r : R)
  | Fail (e : pyexn)
  | Wait (c : loader_method) (k : answer c → task R).
Arguments Done {R} r.
Arguments Fail {R} e.
Arguments Wait {R} c k.

(** A loader: its answer may depend on the calls made so far. *)
Definition row_loader : Type := list loader_method → ∀ c : loader_method, answer c.

Fixpoint run_task {R} (ld : row_loader) (history : list loader_method) (t : task R)
    : outcome R * list loader_method :=
  match t with
  | Done r => (Returned r, history)
  | Fail e => (Raised e, history)
  | Wait c k => run_task ld (history ++ [c]) (k (ld history c))
  end.

(** ** [group_update_master] (groupGQLModel.py, lines 249-279) *)

Definition group_update_master (master_id : UUID) (group : GroupUpdateGQLModel)
    : task ResultGQLModel :=
  let result := mk_result None None in
  let result := mk_result (Some (gu_id group)) (msg result) in
  let result := mk_result (id result) (Some "ok") in
  Wait (load_row groups (gu_id group)) (λ updatedrow,
    match updatedrow with
    | None => Done (mk_result (id result) (Some "fail"))
    | Some updatedrow =>
        Wait (load_row groups master_id) (λ masterrow,
          match masterrow with
          | None => Done (mk_result (id result) (Some "fail"))
          | Some _ =>
              let updatedrow := <["master_id" := v_UUID master_id]> updatedrow in
              Wait (update_row groups updatedrow) (λ updatedrow,
                match updatedrow with
                | None => Done (mk_result (id result) (Some "fail"))
                | Some _ => Done result
                end)
          end)
    end).

(** ** Search by letters *)

(** [f"%{letters}%"] *)
Definition like_pattern (letters : string) : string := "%" +:+ letters +:+ "%".

(** [len(letters)]: the number of characters.  A string is held here as
    the bytes of its UTF-8 form, in which every character is one byte
    that is not of the form 10xxxxxx, followed by up to three that
    are. *)
Definition continuation_byte (c : ascii) : bool :=
  let n := nat_of_ascii c in ((128 <=? n) && (n <? 192))%nat.

Fixpoint len (s : string) : nat :=
  match s with
  | EmptyString => 0
  | String c s' => ((if continuation_byte c then 0 else 1) + len s')%nat
  end.

(** groupGQLModel.py, lines 139-160. *)
Definition group_by_letters (validity : option bool) (letters : string)
    : task (list entity) :=
  if (len letters <? 3)%nat then Done []
  else
    let stmt := getSelectStatement groups in
    let stmt := where_like stmt (model_attr groups "name") (like_pattern letters) in
    let stmt :=
      match validity with
      | Some _ => filter_by stmt "valid" (v_bool true)
      | None => stmt
      end in
    Wait (execute_select groups stmt) (λ result, Done result).

(** userGQLModel.py, lines 144-165. *)
Definition user_by_letters (validity : option bool) (letters : string)
    : task (list entity) :=
  if (len letters <? 3)%nat then Done []
  else
    let stmt := getSelectStatement users in
    let stmt :=
      where_like stmt
        (sql_add (sql_add (model_attr users "name") (str_const " "))
           (model_attr users "surname"))
        (like_pattern letters) in
    let stmt :=
      match validity with
      | Some _ => filter_by stmt "valid" (v_bool true)
      | None => stmt
      end in
    Wait (execute_select users stmt) (λ result, Done result).

(** ** Loaders used as instances *)

(** A loader that finds no row by key and answers every select with
    [rows]. *)
Definition constant_loader (rows : list entity) : row_loader :=
  λ history c,
    match c return answer c with
    | execute_select _ _ => rows
    | _ => None
    end.

End Queries.

(** * Properties of the filter-input synthesis *)

(** ** Dicts *)

Section DictFacts.
Context {V : Type}.
Implicit Types (d items : list (string * V)) (k : string) (v : V).

Lemma dict_set_fresh d k v :
  k ∉ dict_keys d → dict_set d k v = d ++ [(k, v)].
Proof.
  induction d as [|[k' v'] d IH]; simpl; [done|].
  intros Hk. apply not_elem_of_cons in Hk as [Hne Hk].
  destruct (decide (k' = k)); [congruence|]. by rewrite IH.
Qed.

Lemma dict_update_fresh d items :
  NoDup (dict_keys items) →
  (∀ k, k ∈ dict_keys items → k ∉ dict_keys d) →
  dict_update d items = d ++ items.
Proof.
  revert d. induction items as [|[k v] items IH]; intros d Hnd Hfresh.
  - by rewrite app_nil_r.
  - simpl in Hnd. apply NoDup_cons in Hnd as [Hk Hnd].
    unfold dict_update in *. simpl.
    rewrite dict_set_fresh; [|apply Hfresh; simpl; left].
    rewrite IH; [by rewrite <- app_assoc| done |].
    intros k' Hk'. unfold dict_keys. rewrite map_app. simpl.
    intros [Hin|Hin]%elem_of_app.
    + apply (Hfresh k'); [simpl; by right | done].
    + apply list_elem_of_singleton in Hin. subst k'. done.
Qed.

Lemma dict_get_set d k v k' :
  dict_get (dict_set d k v) k' = if decide (k = k') then Some v else dict_get d k'.
Proof.
  induction d as [|[k0 v0] d IH]; simpl.
  - destruct (decide (k = k')); done.
  - destruct (decide (k0 = k)) as [->|Hne]; simpl.
    + destruct (decide (k = k')); done.
    + destruct (decide (k0 = k')) as [->|Hne'].
      * destruct (decide (k = k')); [congruence|done].
      * apply IH.
Qed.

Lemma dict_get_None d k : k ∉ dict_keys d → dict_get d k = None.
Proof.
  induction d as [|[k0 v0] d IH]; simpl; [done|].
  intros [Hne Hk]%not_elem_of_cons.
  destruct (decide (k0 = k)); [congruence | by apply IH].
Qed.

(** [{**d, **items}] answers with [items] where it has the key. *)
Lemma dict_get_update d items k v :
  NoDup (dict_keys items) → (k, v) ∈ items →
  dict_get (dict_update d items) k = Some v.
Proof.
  revert d. induction items as [|[k0 v0] items IH]; intros d Hnd Hin.
  - by apply elem_of_nil in Hin.
  - simpl in Hnd. apply NoDup_cons in Hnd as [Hk0 Hnd].
    apply elem_of_cons in Hin as [Heq|Hin].
    + injection Heq as <- <-. unfold dict_update. simpl.
      assert (Hgen : ∀ d', dict_get d' k = Some v →
                dict_get (foldl (λ acc kv, dict_set acc kv.1 kv.2) d' items) k = Some v).
      { clear IH Hnd. induction items as [|[k1 v1] items IH']; intros d' Hd'; [done|].
        simpl. apply IH'.
        - intros Hin. apply Hk0. simpl. by right.
        - rewrite dict_get_set. destruct (decide (k1 = k)) as [->|]; [|done].
          exfalso. apply Hk0. simpl. by left. }
      apply Hgen. rewrite dict_get_set. by rewrite decide_True.
    + unfold dict_update in *. simpl. by apply IH.
Qed.

Lemma dict_get_update_other d items k :
  k ∉ dict_keys items → dict_get (dict_update d items) k = dict_get d k.
Proof.
  revert d. induction items as [|[k0 v0] items IH]; intros d Hk; [done|].
  simpl in Hk. apply not_elem_of_cons in Hk as [Hne Hk].
  unfold dict_update in *. simpl. rewrite IH; [|done].
  rewrite dict_get_set. by rewrite decide_False.
Qed.
End DictFacts.

Lemma dict_keys_zip {V} (names : list string) (vs : list V) :
  length names = length vs → dict_keys (zip names vs) = names.
Proof.
  revert vs. induction names as [|n names IH]; intros [|v vs] Hlen; simpl in *; try done.
  f_equal. apply IH. by injection Hlen.
Qed.


(** ** Running a computation *)

Lemma run_pair {A} (m : Py A) (st : state) (o : outcome A) :
  (m st).1 = o → m st = (o, (m st).2).
Proof. destruct (m st) as [o' st']. simpl. by intros ->. Qed.

(** ** Names and well-formed states *)


Lemma dunder_name_alive h new t :
  alive h t → dunder_name (h ++ new) t = dunder_name h t.
Proof.
  destruct t; simpl; try done.
  intros Hlt. by rewrite lookup_app_l.
Qed.




Lemma wf_initial : wf initial_state.
Proof.
  intros k v Hk. left. unfold initial_state in Hk. simpl in Hk.
  repeat (apply lookup_insert_Some in Hk as [[<- <-]|[_ Hk]]; [done|]).
  by rewrite lookup_empty in Hk.
Qed.

(** ** Reading globals *)

(** Every read of a global leaves the state as it is, and returns the
    genuine value when the name is intact. *)
Lemma call_builtin_eq g st :
  call_builtin g st
  = match module_attrs st !! g with
    | None => (Returned tt, st)
    | Some _ => (Raised (TypeError "__init__() takes 1 positional argument"), st)
    end.
Proof. unfold call_builtin, bind, global. by destruct (module_attrs st !! g). Qed.

Lemma member_eq g attr st :
  member g attr st
  = match module_attrs st !! g with
    | None => (Returned the_member, st)
    | Some t =>
        if class_has_attr (S (length (heap st))) (heap st) t attr
        then (Returned py_None, st)
        else (Raised (AttributeError attr), st)
    end.
Proof.
  unfold member, bind, global, has_attribute.
  destruct (module_attrs st !! g); [|done]. by destruct (class_has_attr _ _ _ _).
Qed.

Lemma mapper_get_eq k st :
  mapper_get k st
  = match module_attrs st !! "inputTypeGQLMapper" with
    | None => (Returned (inputTypeGQLMapper st !! k), st)
    | Some t =>
        if class_has_attr (S (length (heap st))) (heap st) t "get"
        then (Raised (TypeError "'NoneType' object is not callable"), st)
        else (Raised (AttributeError "get"), st)
    end.
Proof.
  unfold mapper_get, bind. rewrite member_eq.
  destruct (module_attrs st !! _); [|done]. by destruct (class_has_attr _ _ _ _).
Qed.

Lemma with_description_custom base field name k :
  with_description (with_base base (custom_input_class field name k))
    ("Expression on attribute '" +:+ field +:+ "'. Only one constrain allowed.")
  = with_base base (custom_input_class field name k).
Proof. by destruct base. Qed.

Lemma c_annotations_with_base base c : c_annotations (with_base base c) = c_annotations c.
Proof. by destruct base. Qed.

Lemma c_attrs_with_base base c : c_attrs (with_base base c) = c_attrs c.
Proof. by destruct base. Qed.


Lemma c_description_with_base base c :
  c_description (with_base base c) = c_description c.
Proof. by destruct base. Qed.

Lemma with_base_description base c description :
  with_description (with_base base c) description
  = with_base base (with_description c description).
Proof. by destruct base. Qed.

Lemma strawberry_input_custom base field name k st :
  strawberry_input (with_base base (custom_input_class field name k))
    ("Expression on attribute '" +:+ field +:+ "'. Only one constrain allowed.") st
  = (Returned (py_dyn (length (heap st))),
     mk_state (inputTypeGQLMapper st) (module_attrs st)
       (heap st ++ [with_base base (custom_input_class field name k)])).
Proof.
  unfold strawberry_input. rewrite c_annotations_with_base.
  change (forallb parameter_name (dict_keys (c_annotations (custom_input_class field name k))))
    with true.
  cbv iota. unfold new_class. by rewrite with_description_custom.
Qed.

Lemma bind_eq {A B} (m : Py A) (k : A → Py B) st :
  bind m k st
  = match m st with
    | (Returned a, st') => k a st'
    | (Raised e, st') => (Raised e, st')
    end.
Proof. reflexivity. Qed.

(** Running a computation as far as it goes: a [bind] at the head is
    opened, a read of a global is replaced by its equation, and a name
    whose binding is known is looked up. *)
Ltac known_globals :=
  repeat match goal with
         | H : module_attrs ?s1 = module_attrs ?s0 |- context [module_attrs ?s1] =>
             rewrite H
         | H : module_attrs ?st !! ?g = _ |- context [module_attrs ?st !! ?g] => rewrite H
         end.

Ltac run :=
  repeat (first [ progress (rewrite ?call_builtin_eq, ?member_eq, ?mapper_get_eq)
                | progress known_globals
                | rewrite bind_eq ];
          cbn [module_attrs]; cbv beta iota).

(** The global [g] is read next: either it is rebound, and [tac] deals
    with the exception, or the run goes on. *)
Ltac look g tac :=
  run;
  destruct (module_attrs _ !! g) eqn:?;
  [ try (destruct (class_has_attr _ _ _ _)); run; tac | run ].

(** ** One field: [createCustomInput] by cases *)

(** What a request for a field type can come to: an exception, which
    leaves the state as it is, or one of the three results of lines
    30-49. *)
Lemma createCustomInput_inv field name k st o st' :
  createCustomInput field name k st = (o, st') →
  ((∃ e, o = Raised e) ∧ st' = st)
  ∨ (∃ t, inputTypeGQLMapper st !! k = Some t ∧ o = Returned t ∧ st' = st)
  ∨ (inputTypeGQLMapper st !! k = None ∧ dunder_name (heap st) k = Some "Annotated" ∧
     o = Returned k ∧ st' = st)
  ∨ (∃ n, inputTypeGQLMapper st !! k = None ∧ dunder_name (heap st) k = Some n ∧
          n ≠ "Annotated" ∧ o = Returned (py_dyn (length (heap st))) ∧
          st' = mk_state (inputTypeGQLMapper st) (module_attrs st)
                  (heap st ++ [with_base (module_attrs st !! "object")
                                 (custom_input_class field name k)])).
Proof.
  unfold createCustomInput, call_member, subscript_member, name_of_member, py_type,
    global, getattr_name, ret, raise.
  look "inputTypeGQLMapper" ltac:(intros [= <- <-]; eauto).
  destruct (inputTypeGQLMapper st !! k) as [t|] eqn:Hk.
  - look "logging" ltac:(intros [= <- <-]; eauto).
    look "print" ltac:(intros [= <- <-]; eauto).
    intros [= <- <-]. eauto 10.
  - look "print" ltac:(intros [= <- <-]; eauto).
    destruct (dunder_name (heap st) k) as [n|] eqn:Hn; [|intros [= <- <-]; eauto].
    look "typing" ltac:(intros [= <- <-]; eauto).
    destruct (decide (n = "Annotated")) as [->|Hne].
    { run. intros [= <- <-]. right. right. left. done. }
    look "logging" ltac:(intros [= <- <-]; eauto).
    look "type" ltac:(intros [= <- <-]; eauto).
    destruct (has_null name); run; [intros [= <- <-]; eauto|].
    look "strawberry" ltac:(intros [= <- <-]; eauto).
    look "setattr" ltac:(intros [= <- <-]; eauto).
    rewrite strawberry_input_custom. intros [= <- <-].
    right. right. right. exists n. done.
Qed.

Lemma intact_lookup names st g :
  intact names st → g ∈ names → module_attrs st !! g = None.
Proof. intros H Hg. exact (proj1 (Forall_forall _ _) H g Hg). Qed.

Lemma intact_subset names names' st :
  names' ⊆ names → intact names st → intact names' st.
Proof.
  intros Hsub H. apply Forall_forall. intros g Hg.
  apply (intact_lookup names); [done|]. by apply Hsub.
Qed.




Lemma same_tables_refl st : same_tables st st.
Proof. repeat split. exists []. by rewrite app_nil_r. Qed.

Lemma same_tables_trans st1 st2 st3 :
  same_tables st1 st2 → same_tables st2 st3 → same_tables st1 st3.
Proof.
  intros (Hm1 & Ha1 & n1 & Hh1) (Hm2 & Ha2 & n2 & Hh2).
  repeat split; [congruence..|]. exists (n1 ++ n2). by rewrite Hh2, Hh1, app_assoc.
Qed.

Lemma createCustomInput_tables field name k st o st' :
  createCustomInput field name k st = (o, st') → same_tables st st'.
Proof.
  intros H. apply createCustomInput_inv in H
    as [[_ ->]|[(t & _ & _ & ->)|[(_ & _ & _ & ->)|(n & _ & _ & _ & _ & ->)]]];
    try apply same_tables_refl.
  repeat split. simpl. eauto.
Qed.

Lemma resolve_field_tables arg st o st' :
  resolve_field arg st = (o, st') → same_tables st st'.
Proof. destruct arg as [[field name] k]. apply createCustomInput_tables. Qed.

Lemma mapM_resolve_tables args st o st' :
  mapM resolve_field args st = (o, st') → same_tables st st'.
Proof.
  revert st o st'. induction args as [|arg args IH]; intros st o st'; simpl.
  - intros [= <- <-]. apply same_tables_refl.
  - unfold bind at 1. destruct (resolve_field arg st) as [[t|e] st1] eqn:H1.
    + apply resolve_field_tables in H1.
      unfold bind at 1.
      destruct (mapM resolve_field args st1) as [[ts|e] st2] eqn:H2.
      * intros [= <- <-]. eapply same_tables_trans; eauto.
      * intros [= <- <-]. eapply same_tables_trans; eauto.
    + intros [= <- <-]. by eapply resolve_field_tables.
Qed.







(** ** Registration in the module namespace *)

Lemma apply_writes_cons ns n r ws :
  apply_writes ns ((n, r) :: ws) = apply_writes (<[n := r]> ns) ws.
Proof. reflexivity. Qed.

(** The loop of lines 123-124 leaves the mapper and the heap alone and
    makes some first part of its writes.  It returns after one write for
    each object; it stops with the attribute error when an object has no
    [__name__], and with a type error when [setattr] is found rebound. *)
Lemma register_inv rs st o st' :
  register rs st = (o, st') →
  inputTypeGQLMapper st' = inputTypeGQLMapper st ∧ heap st' = heap st ∧
  (∃ ws, ws `prefix_of` register_writes (heap st) rs ∧
         module_attrs st' = apply_writes (module_attrs st) ws) ∧
  ((o = Returned tt ∧
    Forall (λ r, is_Some (dunder_name (heap st) r)) rs ∧
    module_attrs st' = apply_writes (module_attrs st) (register_writes (heap st) rs))
   ∨ (o = Raised (AttributeError "__name__") ∧
      ¬ Forall (λ r, is_Some (dunder_name (heap st) r)) rs)
   ∨ ((∃ msg, o = Raised (TypeError msg)) ∧ is_Some (module_attrs st' !! "setattr"))).
Proof.
  revert st. induction rs as [|r rs IH]; intros st; simpl.
  - unfold ret. intros [= <- <-]. do 2 (split; [done|]).
    split; [by exists []|]. left. by repeat split.
  - rewrite bind_eq. unfold getattr_name.
    destruct (dunder_name (heap st) r) as [n|] eqn:Hn.
    2: { intros [= <- <-]. do 2 (split; [done|]). split; [by exists []|].
         right. left. split; [done|].
         intros Hc. apply Forall_cons in Hc as [[? Hc] _]. congruence. }
    rewrite bind_eq, call_builtin_eq.
    destruct (module_attrs st !! "setattr") as [t|] eqn:Hs.
    { intros [= <- <-]. do 2 (split; [done|]).
      split; [exists []; split; [apply prefix_nil|done]|].
      right. right. rewrite Hs. eauto. }
    rewrite bind_eq. unfold setattr_this. intros H.
    apply IH in H as (Hm & Hh & (ws & Hpre & Hws) & H).
    cbn [inputTypeGQLMapper heap module_attrs] in *.
    do 2 (split; [done|]). split.
    { exists ((n, r) :: ws). split; [by apply prefix_cons|done]. }
    destruct H as [(-> & Hall & Ha)|[(-> & Hnall)|H]].
    + left. split; [done|]. split; [constructor; by rewrite ?Hn|].
      by rewrite apply_writes_cons.
    + right. left. split; [done|]. intros Hc. by apply Forall_cons in Hc as [_ ?].
    + right. right. done.
Qed.






(** ** The three class bodies *)

Lemma typing_Optional_List_cases forward st :
  typing_Optional_List forward st = (Returned tt, st)
  ∨ ∃ e, typing_Optional_List forward st = (Raised e, st).
Proof.
  unfold typing_Optional_List, forward_reference, subscript_member, ret, raise.
  destruct (module_attrs st !! "typing") as [t|] eqn:Ht; run.
  - right. repeat (destruct (class_has_attr _ _ _ _); run); eauto.
  - destruct forward as [s|]; run; [|by left].
    destruct (isidentifier s); run; eauto.
Qed.


Lemma each_typing_cases forwards st :
  each typing_Optional_List forwards st = (Returned tt, st)
  ∨ ∃ e, each typing_Optional_List forwards st = (Raised e, st).
Proof.
  induction forwards as [|f forwards IH]; simpl; [by left|].
  rewrite bind_eq.
  destruct (typing_Optional_List_cases f st) as [->|[e ->]]; [|eauto].
  destruct IH as [->|[e ->]]; eauto.
Qed.


Lemma class_body_cases forwards c st :
  class_body forwards c st = (Returned (with_base (module_attrs st !! "object") c), st)
  ∨ ∃ e, class_body forwards c st = (Raised e, st).
Proof.
  unfold class_body, py_type, global, call_member, ret, raise.
  destruct (module_attrs st !! "type") eqn:?; run; [eauto|].
  destruct (has_null (c_name c)); run; [eauto|].
  destruct (each_typing_cases forwards st) as [->|[e ->]]; [|eauto]. run.
  destruct (module_attrs st !! "strawberry") eqn:?; run.
  { destruct (class_has_attr _ _ _ _); run; eauto. }
  destruct (module_attrs st !! "setattr") eqn:?; run; eauto.
Qed.


(** A decorated class body either raises, leaving the state as it is,
    or puts the finished class at the next address. *)
Lemma decorated_cases forwards c description st :
  (∃ e, decorated forwards c description st = (Raised e, st))
  ∨ decorated forwards c description st
    = (Returned (py_dyn (length (heap st))),
       mk_state (inputTypeGQLMapper st) (module_attrs st)
         (heap st ++ [with_base (module_attrs st !! "object")
                        (with_description c description)])).
Proof.
  unfold decorated, call_member, ret, raise.
  destruct (module_attrs st !! "strawberry") as [t|] eqn:Hs; run.
  - left. destruct (class_has_attr _ _ _ _); run; [|eauto].
    destruct (class_body_cases forwards c st) as [->|[e ->]]; eauto.
  - destruct (class_body_cases forwards c st) as [->|[e ->]]; [|eauto]. run.
    unfold strawberry_input. rewrite c_annotations_with_base.
    destruct (forallb _ _); [|unfold raise; eauto].
    right. unfold new_class. by rewrite with_base_description.
Qed.


Lemma this_module_cases st :
  (intact ["sys"; "__name__"] st ∧ this_module st = (Returned tt, st))
  ∨ ∃ e, this_module st = (Raised e, st).
Proof.
  unfold this_module, global, subscript_member, ret, raise.
  destruct (module_attrs st !! "sys") as [t|] eqn:Hs; run.
  { right. destruct (class_has_attr _ _ _ _); run; eauto. }
  destruct (module_attrs st !! "__name__") as [t|] eqn:Hn; run; [eauto|].
  left. split; [|done]. by repeat constructor.
Qed.

Lemma mapper_set_eq k v st :
  mapper_set k v st
  = match module_attrs st !! "inputTypeGQLMapper" with
    | None =>
        (Returned tt,
         mk_state (<[k := v]> (inputTypeGQLMapper st)) (module_attrs st) (heap st))
    | Some _ =>
        (Raised (TypeError "'type' object does not support item assignment"), st)
    end.
Proof.
  unfold mapper_set, global. rewrite bind_eq.
  by destruct (module_attrs st !! "inputTypeGQLMapper").
Qed.

Lemma for_each_typing_cases {A} (l : list A) st :
  ((l = [] ∨ module_attrs st !! "typing" = None) ∧
   for_each l (optional <~ member "typing" "Optional" ;; subscript_member optional) st
   = (Returned tt, st))
  ∨ ∃ e, for_each l (optional <~ member "typing" "Optional" ;;
                     subscript_member optional) st = (Raised e, st).
Proof.
  destruct l as [|x l]; simpl; [left; eauto|].
  unfold subscript_member, ret, raise.
  destruct (module_attrs st !! "typing") as [t|] eqn:Ht; run.
  - right. destruct (class_has_attr _ _ _ _); run; eauto.
  - left. eauto.
Qed.

(** ** The whole of [createInputs] by cases *)

Lemma lookup_three (h : list classobj) (c0 c1 c2 : classobj) :
  (h ++ [c0; c1; c2]) !! length h = Some c0 ∧
  (h ++ [c0; c1; c2]) !! S (length h) = Some c1 ∧
  (h ++ [c0; c1; c2]) !! S (S (length h)) = Some c2.
Proof.
  repeat split.
  - rewrite lookup_app_r by lia. by rewrite Nat.sub_diag.
  - rewrite lookup_app_r by lia. by replace (S (length h) - length h)%nat with 1%nat by lia.
  - rewrite lookup_app_r by lia. by replace (S (S (length h)) - length h)%nat with 2%nat by lia.
Qed.

(** A call comes to one of three ends.  It raises before line 123, and
    then the mapper and the namespace are as they were.  Or it has
    resolved the fields and built the three classes and then raises in
    the loop of lines 123-124 or on line 129.  Or it returns. *)
Lemma createInputs_cases cls st o st' :
  createInputs cls st = (o, st') →
  ((∃ e, o = Raised e) ∧ same_tables st st')
  ∨ ∃ ts st1,
      mapM resolve_field (field_args cls) st = (Returned ts, st1) ∧
      heap st'
      = heap st1 ++ [with_base (module_attrs st !! "object") (OrType cls ts);
                     with_base (module_attrs st !! "object") (AndType cls ts);
                     with_base (module_attrs st !! "object")
                       (WhereType cls ts (length (heap st1)))] ∧
      ((inputTypeGQLMapper st' = inputTypeGQLMapper st ∧
        (∃ ws, ws `prefix_of` register_writes (heap st')
                                (registered_types ts (length (heap st1))) ∧
               module_attrs st' = apply_writes (module_attrs st) ws) ∧
        (o = Raised (AttributeError "__name__") ∧
         ¬ Forall (λ r, is_Some (dunder_name (heap st') r))
             (registered_types ts (length (heap st1)))
         ∨ (∃ msg, o = Raised (TypeError msg)) ∧
           (is_Some (module_attrs st' !! "setattr")
            ∨ is_Some (module_attrs st' !! "inputTypeGQLMapper"))))
       ∨ (o = Returned (py_dyn (S (S (length (heap st1))))) ∧
          inputTypeGQLMapper st'
          = <[py_dyn (S (S (length (heap st1)))) := py_dyn (S (S (length (heap st1))))]>
              (inputTypeGQLMapper st) ∧
          module_attrs st'
          = apply_writes (module_attrs st)
              (register_writes (heap st') (registered_types ts (length (heap st1)))) ∧
          Forall (λ r, is_Some (dunder_name (heap st') r))
            (registered_types ts (length (heap st1))))).
Proof.
  unfold createInputs.
  change (mapM _ (zip3 _ _ _)) with (mapM resolve_field (field_args cls)).
  look "print" ltac:(intros [= <- <-]; left; split; [eauto|apply same_tables_refl]).
  look "zip" ltac:(intros [= <- <-]; left; split; [eauto|apply same_tables_refl]).
  destruct (mapM resolve_field (field_args cls) st) as [[ts|e] st1] eqn:Hm.
  2: { intros [= <- <-]. left. split; [eauto|]. by eapply mapM_resolve_tables. }
  pose proof (mapM_resolve_tables _ _ _ _ Hm) as Ht1.
  pose proof Ht1 as (Hmap & Hattrs & new & Hh).
  run.
  destruct (for_each_typing_cases (zip (fieldNames cls) ts) st1) as [[_ ->]|[e ->]].
  2: { intros [= <- <-]. left. eauto. }
  run.
  set (d := inputTypesDict_of (fieldNames cls) ts).
  set (b := module_attrs st !! "object").
  match goal with
  | |- context [decorated ?f ?c ?descr st1] =>
      destruct (decorated_cases f c descr st1) as [[e ->]| ->]
  end.
  { intros [= <- <-]. left. eauto. }
  run. rewrite ?Hattrs. fold b.
  set (st2 := mk_state _ _ (heap st1 ++ [_])).
  match goal with
  | |- context [decorated ?f ?c ?descr st2] =>
      destruct (decorated_cases f c descr st2) as [[e ->]| ->]
  end.
  { intros [= <- <-]. left. split; [eauto|]. subst st2.
    repeat split; simpl; [done..|]. rewrite Hh, <- app_assoc. eauto. }
  run. cbn [module_attrs st2]. rewrite ?Hattrs. fold b.
  set (st3 := mk_state _ _ (heap st2 ++ [_])).
  match goal with
  | |- context [decorated ?f ?c ?descr st3] =>
      destruct (decorated_cases f c descr st3) as [[e ->]| ->]
  end.
  { intros [= <- <-]. left. split; [eauto|]. subst st3 st2.
    repeat split; simpl; [done..|]. rewrite Hh, <- !app_assoc. eauto. }
  run. cbn [module_attrs st3 st2]. rewrite ?Hattrs. fold b.
  set (st4 := mk_state _ _ (heap st3 ++ [_])).
  assert (Hh4 : heap st4
                = heap st1 ++ [with_base b (OrType cls ts); with_base b (AndType cls ts);
                               with_base b (WhereType cls ts (length (heap st1)))]).
  { subst st4 st3 st2. cbn [heap]. rewrite <- !app_assoc. cbn [app].
    rewrite !length_app. cbn [length]. rewrite !Nat.add_1_r. reflexivity. }
  assert (Hl2 : length (heap st2) = S (length (heap st1))).
  { subst st2. cbn [heap]. rewrite length_app. simpl. lia. }
  assert (Hl3 : length (heap st3) = S (S (length (heap st1)))).
  { subst st3. cbn [heap]. rewrite length_app, Hl2. simpl. lia. }
  rewrite Hl2, Hl3.
  assert (Hm4 : inputTypeGQLMapper st4 = inputTypeGQLMapper st) by done.
  assert (Ha4 : module_attrs st4 = module_attrs st) by done.
  assert (Hst4 : same_tables st st4).
  { repeat split; [done..|]. rewrite Hh4, Hh, <- app_assoc. eauto. }
  clearbody st4. clear st2 st3 Hl2 Hl3.
  destruct (this_module_cases st4) as [[_ ->]|[e ->]].
  2: { intros [= <- <-]. left. eauto. }
  run.
  destruct (register _ st4) as [[[]|e] st5] eqn:Hreg;
    apply register_inv in Hreg as (Hm5 & Hh5 & (ws & Hpre & Hws) & Hreg).
  - destruct Hreg as [(_ & Hall & Ha5)|[[? _]|[[msg ?] _]]]; [|done..].
    rewrite bind_eq, mapper_set_eq.
    destruct (module_attrs st5 !! "inputTypeGQLMapper") as [t|] eqn:Hg.
    + intros [= <- <-]. right. exists ts, st1. split; [done|].
      split; [congruence|]. left. split; [congruence|]. split.
      { exists ws. rewrite Hh5. split; [done|]. by rewrite Hws, Ha4. }
      right. split; [eauto|]. right. rewrite Hg. eauto.
    + unfold ret. intros [= <- <-].
      right. exists ts, st1. split; [done|]. cbn [heap inputTypeGQLMapper module_attrs].
      split; [congruence|]. right. rewrite Hh5, Hm5, Hm4, Ha5, Ha4. done.
  - intros [= <- <-]. right. exists ts, st1. split; [done|].
    split; [congruence|]. left. split; [congruence|]. split.
    { exists ws. rewrite Hh5. split; [done|]. by rewrite Hws, Ha4. }
    destruct Hreg as [(? & _)|[([= ->] & Hn)|(Hmsg & Hs)]]; [done| |].
    + left. by rewrite Hh5.
    + right. destruct Hmsg as [msg [= ->]]. split; [eauto|by left].
Qed.


Lemma mapM_resolve_length args st ts st' :
  mapM resolve_field args st = (Returned ts, st') → length ts = length args.
Proof.
  revert st ts st'. induction args as [|arg args IH]; intros st ts st'; simpl.
  - by intros [= <- <-].
  - unfold bind at 1. destruct (resolve_field arg st) as [[t|e] st1]; [|done].
    unfold bind at 1.
    destruct (mapM resolve_field args st1) as [[ts'|e] st2] eqn:H2; [|done].
    intros [= <- <-]. simpl. f_equal. eauto.
Qed.

Lemma field_args_map cls :
  field_args cls
  = map (λ fk, (fk.1, cls_name cls +:+ "_" +:+ fk.1, fk.2)) (cls_annotations cls).
Proof.
  unfold field_args, opNames, fieldNames, types.
  induction (cls_annotations cls) as [|[f k] l IH]; simpl; [done|]. by rewrite IH.
Qed.

Lemma field_args_length cls : length (field_args cls) = length (fieldNames cls).
Proof. rewrite field_args_map. unfold fieldNames. by rewrite !length_map. Qed.

(** With distinct field names the dict comprehension of lines 58-61
    keeps every pair. *)
Lemma inputTypesDict_of_zip names ts :
  NoDup names → length ts = length names →
  inputTypesDict_of names ts = zip names (map (λ t, A_Optional (A_type t)) ts).
Proof.
  intros Hnd Hlen. unfold inputTypesDict_of.
  rewrite dict_update_fresh; [done| |].
  - rewrite dict_keys_zip; [done|]. by rewrite length_map.
  - intros k _. apply not_elem_of_nil.
Qed.

(** What a call that returns has done. *)
Lemma createInputs_Returned cls st w st' :
  createInputs cls st = (Returned w, st') →
  ∃ ts st1,
    mapM resolve_field (field_args cls) st = (Returned ts, st1) ∧
    w = py_dyn (S (S (length (heap st1)))) ∧
    heap st'
    = heap st1 ++ [with_base (module_attrs st !! "object") (OrType cls ts);
                   with_base (module_attrs st !! "object") (AndType cls ts);
                   with_base (module_attrs st !! "object")
                     (WhereType cls ts (length (heap st1)))] ∧
    inputTypeGQLMapper st' = <[w := w]> (inputTypeGQLMapper st) ∧
    module_attrs st'
    = apply_writes (module_attrs st)
        (register_writes (heap st') (registered_types ts (length (heap st1)))) ∧
    Forall (λ r, is_Some (dunder_name (heap st') r))
      (registered_types ts (length (heap st1))).
Proof.
  intros H. apply createInputs_cases in H as [[[e ?] _]|(ts & st1 & Hm & Hh & H)]; [done|].
  exists ts, st1.
  destruct H as [(_ & _ & [[? _]|[[msg ?] _]])|([= ->] & Hmap & Ha & Hall)]; done.
Qed.


(** ** Scalar filters *)

(** C2 (as the code has it): [StrFilter], [DatetimeFilter], [IntFilter]
    and every operator type built by [createCustomInput] offer the five
    optional comparison slots; [StrFilter] adds [_like], [_ilike],
    [_startswith], [_endswith] and [IntFilter] adds [_in]; [BoolFilter]
    offers [_eq] alone and [UuidFilter] offers [_eq] and [_in] alone. *)
Theorem scalar_filter_slots :
  (inputTypeGQLMapper initial_state !! py_str = Some StrFilter ∧
   optional_slots StrFilter_def
   = ["_eq"; "_le"; "_lt"; "_ge"; "_gt"; "_like"; "_ilike"; "_startswith"; "_endswith"]) ∧
  (inputTypeGQLMapper initial_state !! py_datetime = Some DatetimeFilter ∧
   optional_slots DatetimeFilter_def = ["_eq"; "_le"; "_lt"; "_ge"; "_gt"]) ∧
  (inputTypeGQLMapper initial_state !! py_int = Some IntFilter ∧
   optional_slots IntFilter_def = ["_eq"; "_le"; "_lt"; "_ge"; "_gt"; "_in"]) ∧
  (inputTypeGQLMapper initial_state !! py_bool = Some BoolFilter ∧
   optional_slots BoolFilter_def = ["_eq"]) ∧
  (inputTypeGQLMapper initial_state !! py_UUID = Some UuidFilter ∧
   optional_slots UuidFilter_def = ["_eq"; "_in"]) ∧
  (∀ field name baseType,
     optional_slots (custom_input_class field name baseType)
     = ["_eq"; "_le"; "_lt"; "_ge"; "_gt"] ∧
     dict_keys (c_annotations (custom_input_class field name baseType))
     = ["_eq"; "_le"; "_lt"; "_ge"; "_gt"]) ∧
  (∀ t c, t ∈ [StrFilter; DatetimeFilter; IntFilter; BoolFilter; UuidFilter] →
     class_of [] t = Some c → optional_slots c = dict_keys (c_annotations c)).
Proof.
  repeat split; try reflexivity.
  intros t c Ht Hc.
  repeat (apply elem_of_cons in Ht as [->|Ht]; [by injection Hc as <-|]).
  by apply elem_of_nil in Ht.
Qed.

(** C2, as stated, fails on the filter registered for [uuid.UUID]: it
    has no [_lt] slot (nor [_le], [_gt], [_ge]). *)
Lemma UuidFilter_lacks_lt :
  inputTypeGQLMapper initial_state !! py_UUID = Some UuidFilter ∧
  class_of (heap initial_state) UuidFilter = Some UuidFilter_def ∧
  dict_get (c_annotations UuidFilter_def) "_lt" = None ∧
  "_lt" ∉ optional_slots UuidFilter_def.
Proof.
  repeat split. intros Hin.
  repeat (apply elem_of_cons in Hin as [Hin|Hin]; [discriminate|]).
  by apply elem_of_nil in Hin.
Qed.

(** ** The three generated types *)










(** ** Sharing of cached types *)

(** A request for a reused kind that returns, returns the reused type
    and leaves the state as it is. *)
Lemma createCustomInput_reused st0 st field name k t t' st' :
  reused st0 k t → same_tables st0 st →
  createCustomInput field name k st = (Returned t', st') → t' = t ∧ st' = st.
Proof.
  intros Hr (Hm & _) H. unfold reused in Hr. rewrite <- Hm in Hr.
  apply createCustomInput_inv in H
    as [[[e ?] _]|[(t0 & Hk & [= ->] & ->)|[(Hk & Hn & [= ->] & ->)
                                          |(n & Hk & Hn & Hne & _)]]]; [done|..].
  - destruct Hr as [Hr|(Hr & _)]; [|congruence]. split; congruence.
  - destruct Hr as [Hr|(_ & -> & _)]; [congruence|done].
  - destruct Hr as [Hr|(_ & _ & Hr)]; [congruence|].
    rewrite Hr in Hn. congruence.
Qed.

Lemma mapM_resolve_reused args st0 st ts st' i field name k t :
  same_tables st0 st →
  mapM resolve_field args st = (Returned ts, st') →
  args !! i = Some (field, name, k) → reused st0 k t →
  ts !! i = Some t.
Proof.
  revert st ts st' i. induction args as [|arg args IH]; intros st ts st' i Hst; simpl; [done|].
  unfold bind at 1. destruct (resolve_field arg st) as [[t1|e] st1] eqn:H1; [|done].
  unfold bind at 1.
  destruct (mapM resolve_field args st1) as [[ts'|e] st2] eqn:H2; [|done].
  intros [= <- <-] Hi Hr. destruct i as [|i]; simpl in *.
  - injection Hi as ->. simpl in H1.
    destruct (createCustomInput_reused st0 st _ _ _ _ _ _ Hr Hst H1) as [-> _]. done.
  - apply (IH st1 ts' st2 i); [|exact H2|exact Hi|exact Hr].
    eapply same_tables_trans; [exact Hst|]. by eapply resolve_field_tables.
Qed.

Lemma wf_same_tables st st' : same_tables st st' → wf st → wf st'.
Proof.
  intros (Hm & _ & new & Hh) Hwf k v Hk. rewrite Hm in Hk.
  destruct (Hwf k v Hk) as [?|(a & -> & -> & Hlt)]; [by left|right].
  exists a. repeat split. rewrite Hh, length_app. lia.
Qed.

(** A call keeps the state well formed and the entries of the mapper. *)
Lemma createInputs_frame cls st o st' :
  createInputs cls st = (o, st') →
  (∃ new, heap st' = heap st ++ new) ∧
  (wf st → wf st') ∧
  (wf st → ∀ k t, inputTypeGQLMapper st !! k = Some t →
             inputTypeGQLMapper st' !! k = Some t).
Proof.
  intros H. apply createInputs_cases in H as [[_ Ht]|(ts & st1 & Hm & Hh & H)].
  { split; [apply Ht|]. split; [by apply wf_same_tables|].
    intros _ k t. by rewrite (proj1 Ht). }
  pose proof (mapM_resolve_tables _ _ _ _ Hm) as (_ & _ & new & Hh1).
  assert (Hgrow : ∃ new', heap st' = heap st ++ new').
  { rewrite Hh, Hh1, <- app_assoc. eauto. }
  split; [done|].
  destruct H as [(Hmap & _)|(_ & Hmap & _)].
  - split.
    + intros Hwf k v Hk. rewrite Hmap in Hk.
      destruct (Hwf k v Hk) as [?|(a & -> & -> & Hlt)]; [by left|right].
      exists a. repeat split. destruct Hgrow as [new' ->]. rewrite length_app. lia.
    + intros _ k t. by rewrite Hmap.
  - split.
    + intros Hwf k v Hk. rewrite Hmap in Hk.
      apply lookup_insert_Some in Hk as [[<- <-]|[Hne Hk]].
      * right. eexists. repeat split. rewrite Hh, length_app. simpl. lia.
      * destruct (Hwf k v Hk) as [?|(a & -> & -> & Hlt)]; [by left|right].
        exists a. repeat split. destruct Hgrow as [new' ->]. rewrite length_app. lia.
    + intros Hwf k t Hk. rewrite Hmap, lookup_insert_ne; [done|].
      intros <-. destruct (Hwf _ _ Hk) as [?|(a & [= <-] & _ & Hlt)]; [done|].
      rewrite Hh1, length_app in Hlt. lia.
Qed.

Lemma calls_frame st st' :
  calls st st' → wf st →
  wf st' ∧ ∀ k t, inputTypeGQLMapper st !! k = Some t →
                  inputTypeGQLMapper st' !! k = Some t.
Proof.
  induction 1 as [st|st cls o st1 st2 Hc _ IH|st field name k o st1 st2 Hc _ IH];
    intros Hwf.
  - done.
  - destruct (createInputs_frame _ _ _ _ Hc) as (_ & Hwf1 & Hkeep).
    destruct (IH (Hwf1 Hwf)) as [Hwf2 Hkeep2]. split; [done|].
    intros k t Hk. apply Hkeep2. by apply Hkeep.
  - pose proof (createCustomInput_tables _ _ _ _ _ _ Hc) as Ht.
    destruct (IH (wf_same_tables _ _ Ht Hwf)) as [Hwf2 Hkeep2]. split; [done|].
    intros k' t Hk. apply Hkeep2. by rewrite (proj1 Ht).
Qed.

Lemma combinator_class_get name combinators d description field v :
  NoDup (dict_keys d) → (field, v) ∈ d →
  dict_get (c_annotations (with_description (combinator_class name combinators d) description))
    field = Some v.
Proof. intros Hnd Hin. simpl. by apply dict_get_update. Qed.

(** A field of a reused kind is annotated with the reused type, made
    optional, in all three generated classes. *)
Lemma reused_kind_annotated (st st' : state) (cls : pycls) (w : pytype)
    (field : string) (k t : pytype) :
  reused st k t →
  NoDup (fieldNames cls) → (field, k) ∈ cls_annotations cls →
  createInputs cls st = (Returned w, st') →
  ∃ (o : nat) (orC andC whereC : classobj),
    w = py_dyn (S (S o)) ∧
    class_of (heap st') (py_dyn o) = Some orC ∧
    class_of (heap st') (py_dyn (S o)) = Some andC ∧
    class_of (heap st') w = Some whereC ∧
    dict_get (c_annotations whereC) field = Some (A_Optional (A_type t)) ∧
    dict_get (c_annotations orC) field = Some (A_Optional (A_type t)) ∧
    dict_get (c_annotations andC) field = Some (A_Optional (A_type t)).
Proof.
  intros Hreused Hnd Hin Hrun.
  apply createInputs_Returned in Hrun as (ts & st1 & Hm & -> & Hheap & _).
  pose proof (mapM_resolve_length _ _ _ _ Hm) as Hlen.
  rewrite field_args_length in Hlen.
  apply list_elem_of_lookup_1 in Hin as [i Hi].
  assert (Harg : field_args cls !! i = Some (field, cls_name cls +:+ "_" +:+ field, k)).
  { rewrite field_args_map.
    change (map ?f ?l) with (f <$> l). by rewrite list_lookup_fmap, Hi. }
  pose proof (mapM_resolve_reused _ st st _ _ _ _ _ _ _
                (same_tables_refl st) Hm Harg Hreused) as Hti.
  assert (Hd : (field, A_Optional (A_type t))
               ∈ inputTypesDict_of (fieldNames cls) ts).
  { rewrite inputTypesDict_of_zip by done.
    apply (list_elem_of_lookup_2 _ i). apply lookup_zip_Some. split.
    - unfold fieldNames. change (map ?f ?l) with (f <$> l).
      by rewrite list_lookup_fmap, Hi.
    - change (map ?f ?l) with (f <$> l). by rewrite list_lookup_fmap, Hti. }
  assert (Hkeys : NoDup (dict_keys (inputTypesDict_of (fieldNames cls) ts))).
  { rewrite inputTypesDict_of_zip by done. rewrite dict_keys_zip; [done|].
    by rewrite length_map. }
  set (o := length (heap st1)) in *. set (b := module_attrs st !! "object") in *.
  destruct (lookup_three (heap st1) (with_base b (OrType cls ts))
              (with_base b (AndType cls ts)) (with_base b (WhereType cls ts o)))
    as (H0 & H1 & H2). fold o in H0, H1, H2.
  exists o, (with_base b (OrType cls ts)), (with_base b (AndType cls ts)),
         (with_base b (WhereType cls ts o)).
  cbn [class_of]. rewrite Hheap, H0, H1, H2.
  do 4 (split; [done|]). rewrite !c_annotations_with_base.
  repeat split; by apply combinator_class_get.
Qed.




(** Once a class called [logging] has been decorated, a request for a
    kind that has a mapper entry raises on line 47. *)
Lemma cached_kind_after_logging_rebound :
  let r := createInputs (mk_cls "logging" []) initial_state in
  r.1 = Returned (py_dyn 2) ∧
  inputTypeGQLMapper r.2 !! py_str = Some StrFilter ∧
  (createCustomInput "a" "E_a" py_str r.2).1 = Raised (AttributeError "info").
Proof. by_evaluation. Qed.

(** ** Nested filter references *)

Lemma nested_filter_ref_reused st k :
  wf st → nested_filter_ref st k → reused st k k.
Proof.
  intros Hwf [(target & module & ->)|(cls0 & st0 & st1 & Hwf0 & Hrun & Hcalls)].
  - right. repeat split.
    destruct (inputTypeGQLMapper st !! py_Annotated target module) as [v|] eqn:Hk; [|done].
    destruct (Hwf _ _ Hk) as [?|(a & ? & _)]; done.
  - left. destruct (createInputs_frame _ _ _ _ Hrun) as (_ & Hwf1 & _).
    destruct (calls_frame _ _ Hcalls (Hwf1 Hwf0)) as [_ Hkeep]. apply Hkeep.
    apply createInputs_Returned in Hrun as (ts & st2 & _ & Hk & _ & -> & _).
    apply lookup_insert_eq.
Qed.

(** C4: a field whose kind is a nested filter reference gets that very
    type, made optional, in the where, and and or types; no operator
    class stands in for it. *)
Theorem nested_filter_used_as_is (st st' : state) (cls : pycls) (w : pytype)
    (field : string) (k : pytype) :
  wf st → nested_filter_ref st k →
  NoDup (fieldNames cls) → (field, k) ∈ cls_annotations cls →
  createInputs cls st = (Returned w, st') →
  ∃ (o : nat) (orC andC whereC : classobj),
    w = py_dyn (S (S o)) ∧
    class_of (heap st') (py_dyn o) = Some orC ∧
    class_of (heap st') (py_dyn (S o)) = Some andC ∧
    class_of (heap st') w = Some whereC ∧
    dict_get (c_annotations whereC) field = Some (A_Optional (A_type k)) ∧
    dict_get (c_annotations orC) field = Some (A_Optional (A_type k)) ∧
    dict_get (c_annotations andC) field = Some (A_Optional (A_type k)).
Proof.
  intros Hwf Hnested Hnd Hin Hrun.
  eapply reused_kind_annotated; [|exact Hnd|exact Hin|exact Hrun].
  by apply nested_filter_ref_reused.
Qed.

Lemma nested_filter_used_as_is_witness :
  let st := (createInputs MembershipInputWhereFilter initial_state).2 in
  let st' := (createInputs GroupInputWhereFilter st).2 in
  ∃ (o : nat) (orC andC whereC : classobj),
    py_dyn 5 = py_dyn (S (S o)) ∧
    class_of (heap st') (py_dyn o) = Some orC ∧
    class_of (heap st') (py_dyn (S o)) = Some andC ∧
    class_of (heap st') (py_dyn 5) = Some whereC ∧
    dict_get (c_annotations whereC) "memberships" = Some (A_Optional (A_type (py_dyn 2))) ∧
    dict_get (c_annotations orC) "memberships" = Some (A_Optional (A_type (py_dyn 2))) ∧
    dict_get (c_annotations andC) "memberships" = Some (A_Optional (A_type (py_dyn 2))).
Proof.
  apply (nested_filter_used_as_is
           (createInputs MembershipInputWhereFilter initial_state).2 _
           GroupInputWhereFilter).
  - eapply createInputs_frame; [apply surjective_pairing|exact wf_initial].
  - right.
    exists MembershipInputWhereFilter, initial_state,
           (createInputs MembershipInputWhereFilter initial_state).2.
    split; [exact wf_initial|]. split; [|apply calls_refl].
    apply run_pair. vm_compute. reflexivity.
  - by_compute.
  - by_compute.
  - apply run_pair. vm_compute. reflexivity.
Defined.

(** ** Registration under [__name__] *)






Lemma field_args_alive cls st :
  Forall (alive (heap st)) (types cls) →
  Forall (λ arg, alive (heap st) arg.2) (field_args cls).
Proof.
  rewrite field_args_map. unfold types.
  induction (cls_annotations cls) as [|[f k] l IH]; simpl; intros H; [constructor|].
  apply Forall_cons in H as [Hk H]. constructor; [done|by apply IH].
Qed.



(** The proviso on later objects matters: a class called [StrFilter]
    with a [str] field leaves the name bound to the scalar filter, which
    comes after the where type in the list. *)
Lemma where_type_name_taken_by_field_type :
  let r := createInputs (mk_cls "StrFilter" [("a", py_str)]) initial_state in
  r.1 = Returned (py_dyn 2) ∧
  dunder_name (heap r.2) (py_dyn 2) = Some "StrFilter" ∧
  module_attrs r.2 !! "StrFilter" = Some StrFilter.
Proof. by_evaluation. Qed.


(** ** Names that cannot collide with a global *)




(** ** Failures *)








(** ** Names that are identifiers *)
















(** The provisos of C6 matter.  A class called [inputTypeGQLMapper]
    with a [str] field makes line 124 rebind the dict's name, and line
    129 raises; a field called [class] makes [strawberry.input] raise on
    line 80; a class whose name is no identifier makes the forward
    reference of line 70 raise. *)
Lemma createInputs_other_failures :
  let r := createInputs (mk_cls "inputTypeGQLMapper" [("a", py_str)]) initial_state in
  let r' := createInputs (mk_cls "E" [("class", py_str)]) initial_state in
  let r'' := createInputs (mk_cls "a b" [("a", py_str)]) initial_state in
  r.1 = Raised (TypeError "'type' object does not support item assignment") ∧
  module_attrs r.2 !! "inputTypeGQLMapper" = Some (py_dyn 2) ∧
  r'.1 = Raised (SyntaxError "invalid syntax") ∧
  r''.1 = Raised (SyntaxError "Forward reference must be an expression").
Proof. by_evaluation. Qed.

(** ** A class without fields *)




(** ** Name collisions *)



























(** What the namespace holds does matter where it binds a name that the
    function reads: the same class is decorated without error at import
    and raises once [typing] names a where type. *)
Lemma outcome_depends_on_read_names :
  let cls := mk_cls "E" [("a", py_str)] in
  let st := (createInputs (mk_cls "typing" []) initial_state).2 in
  (createInputs cls initial_state).1 = Returned (py_dyn 2) ∧
  (createInputs cls st).1 = Raised (AttributeError "Optional").
Proof. by_evaluation. Qed.

(** * Further properties of the filter-input synthesis *)

(** ** The mapper over a run of calls *)

Lemma scalar_filter_initial k v :
  scalar_filter k = Some v → inputTypeGQLMapper initial_state !! k = Some v.
Proof. destruct k; simpl; intros [= <-]; reflexivity. Qed.

Lemma mapper_shape_initial : mapper_shape initial_state.
Proof.
  intros k v Hk. left.
  destruct (wf_initial k v Hk) as [?|(a & _ & _ & Hlt)]; [done|]. simpl in Hlt. lia.
Qed.

Lemma mapper_shape_same_tables st st' :
  same_tables st st' → mapper_shape st → mapper_shape st'.
Proof.
  intros (Hm & _ & new & Hh) Hs k v Hk. rewrite Hm in Hk.
  destruct (Hs k v Hk) as [?|(a & c & -> & -> & Hc & Hw)]; [by left|right].
  exists a, c. repeat split; [|done]. rewrite Hh. by apply lookup_app_l_Some.
Qed.

Lemma createInputs_mapper_shape cls st o st' :
  createInputs cls st = (o, st') → mapper_shape st → mapper_shape st'.
Proof.
  intros H Hs. apply createInputs_cases in H as [[_ Ht]|(ts & st1 & Hm & Hh & H)].
  { by eapply mapper_shape_same_tables. }
  pose proof (mapM_resolve_tables _ _ _ _ Hm) as (_ & _ & new & Hh1).
  assert (Hold : ∀ k v, inputTypeGQLMapper st !! k = Some v →
            scalar_filter k = Some v
            ∨ ∃ a c, k = py_dyn a ∧ v = py_dyn a ∧ heap st' !! a = Some c ∧ where_class c).
  { intros k v Hk.
    destruct (Hs k v Hk) as [?|(a & c & -> & -> & Hc & Hw)]; [by left|right].
    exists a, c. repeat split; [|done].
    rewrite Hh, Hh1, <- app_assoc. by apply lookup_app_l_Some. }
  destruct H as [(Hmap & _)|(_ & Hmap & _)]; intros k v Hk; rewrite Hmap in Hk.
  - by apply Hold.
  - apply lookup_insert_Some in Hk as [[<- <-]|[Hne Hk]]; [|by apply Hold].
    right. eexists _, _. do 2 (split; [done|]). split.
    + rewrite Hh. apply lookup_three.
    + by eexists _, _, _, _.
Qed.

Lemma calls_mapper_shape st st' : calls st st' → mapper_shape st → mapper_shape st'.
Proof.
  induction 1 as [st|st cls o st1 st2 Hc _ IH|st field name k o st1 st2 Hc _ IH];
    intros Hs; [done|..].
  - apply IH. by eapply createInputs_mapper_shape.
  - apply IH. eapply mapper_shape_same_tables; [|done].
    by eapply createCustomInput_tables.
Qed.

Lemma where_class_description c :
  where_class c → c_description c = Some ("Operators definition on " +:+ c_name c).
Proof. intros (cls & ts & o & b & ->). by destruct b. Qed.

Lemma where_class_not_operator_class c : where_class c → ¬ operator_class c.
Proof.
  intros Hw (field & name & k & b & ->). apply where_class_description in Hw.
  rewrite c_description_with_base in Hw. simpl in Hw. cbv [String.append] in Hw.
  discriminate.
Qed.

Lemma where_class_not_combinator_only c : where_class c → ¬ combinator_only_class c.
Proof.
  intros Hw (cls & ts & b & [-> | ->]); apply where_class_description in Hw;
    rewrite c_description_with_base in Hw; simpl in Hw; cbv [String.append] in Hw;
    discriminate.
Qed.

(** X1: in every state reached from the import state by decorator
    calls, the dict created on line 9 sends [str], [int], [bool],
    [datetime] and [UUID] to their hard-coded filters, and any other key
    is a where type built by [createWhereOp], still on the heap and
    mapped to itself; no operator class built by [createCustomInput] and
    no or or and type is a key.  This is about the dict, whatever the
    name [inputTypeGQLMapper] is bound to by then. *)
Theorem reachable_mapper_shape (st : state) :
  calls initial_state st →
  (∀ k v, scalar_filter k = Some v → inputTypeGQLMapper st !! k = Some v) ∧
  (∀ k v, inputTypeGQLMapper st !! k = Some v →
     scalar_filter k = Some v ∨
     ∃ a c, k = py_dyn a ∧ v = py_dyn a ∧ heap st !! a = Some c ∧ where_class c ∧
            c_description c = Some ("Operators definition on " +:+ c_name c)) ∧
  (∀ a c, heap st !! a = Some c → operator_class c ∨ combinator_only_class c →
          inputTypeGQLMapper st !! py_dyn a = None).
Proof.
  intros Hcalls. destruct (calls_frame _ _ Hcalls wf_initial) as [Hwf Hkeep].
  pose proof (calls_mapper_shape _ _ Hcalls mapper_shape_initial) as Hs.
  split; [|split].
  - intros k v Hk. apply Hkeep. by apply scalar_filter_initial.
  - intros k v Hk. destruct (Hs k v Hk) as [?|(a & c & -> & -> & Hc & Hw)]; [by left|right].
    exists a, c. repeat split; [done..|]. by apply where_class_description.
  - intros a c Hc Hkind.
    destruct (inputTypeGQLMapper st !! py_dyn a) as [v|] eqn:Hk; [exfalso|done].
    destruct (Hs _ _ Hk) as [?|(a' & c' & [= <-] & _ & Hc' & Hw)]; [done|].
    rewrite Hc in Hc'. injection Hc' as <-.
    destruct Hkind as [Hop|Hcomb].
    + by apply (where_class_not_operator_class c).
    + by apply (where_class_not_combinator_only c).
Qed.

Lemma reachable_mapper_shape_witness :
  let st := (createInputs GroupInputWhereFilter
               (createInputs MembershipInputWhereFilter initial_state).2).2 in
  (∀ k v, scalar_filter k = Some v → inputTypeGQLMapper st !! k = Some v) ∧
  (∀ k v, inputTypeGQLMapper st !! k = Some v →
     scalar_filter k = Some v ∨
     ∃ a c, k = py_dyn a ∧ v = py_dyn a ∧ heap st !! a = Some c ∧ where_class c ∧
            c_description c = Some ("Operators definition on " +:+ c_name c)) ∧
  (∀ a c, heap st !! a = Some c → operator_class c ∨ combinator_only_class c →
          inputTypeGQLMapper st !! py_dyn a = None).
Proof.
  apply reachable_mapper_shape.
  eapply calls_createInputs; [apply surjective_pairing|].
  eapply calls_createInputs; [apply surjective_pairing|].
  apply calls_refl.
Defined.

(** X2: a call that returns adds exactly one entry to the mapper, the
    new where type under itself; that key was not there before and
    names no class that existed before the call. *)
Theorem createInputs_adds_one_entry (cls : pycls) (st st' : state) (w : pytype) :
  wf st → createInputs cls st = (Returned w, st') →
  inputTypeGQLMapper st !! w = None ∧
  ¬ alive (heap st) w ∧
  inputTypeGQLMapper st' = <[w := w]> (inputTypeGQLMapper st) ∧
  size (inputTypeGQLMapper st') = S (size (inputTypeGQLMapper st)).
Proof.
  intros Hwf Hrun.
  apply createInputs_Returned in Hrun as (ts & st1 & Hm & -> & _ & Hmap & _).
  pose proof (mapM_resolve_tables _ _ _ _ Hm) as (_ & _ & new & Hh).
  assert (Hfresh : ¬ alive (heap st) (py_dyn (S (S (length (heap st1)))))).
  { simpl. rewrite Hh, length_app. lia. }
  assert (Hnone : inputTypeGQLMapper st !! py_dyn (S (S (length (heap st1)))) = None).
  { destruct (inputTypeGQLMapper st !! _) as [v|] eqn:Hk; [|done].
    exfalso. apply Hfresh.
    destruct (Hwf _ _ Hk) as [?|(a & [= <-] & _ & Hlt)]; [done|]. exact Hlt. }
  repeat split; [done..|].
  rewrite Hmap. by apply map_size_insert_None.
Qed.

Lemma createInputs_adds_one_entry_witness :
  let r := createInputs GroupTypeInputWhereFilter initial_state in
  inputTypeGQLMapper initial_state !! py_dyn 2 = None ∧
  ¬ alive (heap initial_state) (py_dyn 2) ∧
  inputTypeGQLMapper r.2 = <[py_dyn 2 := py_dyn 2]> (inputTypeGQLMapper initial_state) ∧
  size (inputTypeGQLMapper r.2) = S (size (inputTypeGQLMapper initial_state)).
Proof.
  apply (createInputs_adds_one_entry GroupTypeInputWhereFilter initial_state).
  - exact wf_initial.
  - apply run_pair. vm_compute. reflexivity.
Defined.

(** ** The heap over one call *)

Lemma builds_class_later st0 st k :
  same_tables st0 st → alive (heap st0) k → builds_class st k = builds_class st0 k.
Proof.
  intros (Hm & _ & new & Hh) Ha. unfold builds_class.
  by rewrite Hm, Hh, dunder_name_alive.
Qed.

Lemma resolve_field_heap_length arg st t st1 :
  resolve_field arg st = (Returned t, st1) →
  length (heap st1)
  = (length (heap st) + if builds_class st arg.2 then 1 else 0)%nat.
Proof.
  destruct arg as [[field name] k]. simpl. intros H. unfold builds_class.
  apply createCustomInput_inv in H
    as [[[e ?] _]|[(t' & Hk & _ & ->)|[(Hk & Hn & _ & ->)
                                      |(n & Hk & Hn & Hne & _ & ->)]]]; [done|..].
  - rewrite Hk. lia.
  - rewrite Hk, Hn. simpl. lia.
  - rewrite Hk, Hn, decide_False by done. simpl. rewrite length_app. simpl. lia.
Qed.

Lemma mapM_resolve_heap_length args st0 st ts st' :
  same_tables st0 st →
  Forall (λ arg, alive (heap st0) arg.2) args →
  mapM resolve_field args st = (Returned ts, st') →
  length (heap st')
  = (length (heap st)
     + length (List.filter (λ arg, builds_class st0 arg.2) args))%nat.
Proof.
  revert st ts st'. induction args as [|arg args IH]; intros st ts st' Hst Halive; simpl.
  - intros [= <- <-]. lia.
  - apply Forall_cons in Halive as [Ha Halive].
    unfold bind at 1. destruct (resolve_field arg st) as [[t|e] st1] eqn:H1; [|done].
    unfold bind at 1.
    destruct (mapM resolve_field args st1) as [[ts'|e] st2] eqn:H2; [|done].
    intros [= <- <-].
    pose proof (resolve_field_tables _ _ _ _ H1) as Ht1.
    rewrite (IH st1 ts' st2 (same_tables_trans _ _ _ Hst Ht1) Halive H2).
    rewrite (resolve_field_heap_length _ _ _ _ H1).
    rewrite (builds_class_later st0 st _ Hst Ha).
    destruct (builds_class st0 arg.2); simpl; lia.
Qed.

Lemma filter_field_args cls (f : pytype → bool) :
  length (List.filter (λ arg : string * string * pytype, f arg.2) (field_args cls))
  = length (List.filter f (types cls)).
Proof.
  rewrite field_args_map. unfold types.
  induction (cls_annotations cls) as [|[field k] l IH]; simpl; [done|].
  destruct (f k); simpl; by rewrite IH.
Qed.

(** X3: a call that returns leaves every class that was on the heap in
    place and adds the or, and and where types plus one operator class
    for each field whose kind has no mapper entry and is not called
    ["Annotated"], and nothing else. *)
Theorem createInputs_heap_growth (cls : pycls) (st st' : state) (w : pytype) :
  Forall (alive (heap st)) (types cls) →
  createInputs cls st = (Returned w, st') →
  ∃ new,
    heap st' = heap st ++ new ∧
    length new = (length (List.filter (builds_class st) (types cls)) + 3)%nat.
Proof.
  intros Halive Hrun.
  apply createInputs_Returned in Hrun as (ts & st1 & Hm & _ & Hheap & _).
  pose proof (mapM_resolve_tables _ _ _ _ Hm) as (_ & _ & new & Hh).
  pose proof (mapM_resolve_heap_length _ st st _ _ (same_tables_refl st)
                (field_args_alive _ _ Halive) Hm) as Hlen.
  rewrite filter_field_args, Hh, length_app in Hlen.
  eexists. split.
  - rewrite Hheap, Hh, <- app_assoc. reflexivity.
  - rewrite length_app. simpl. lia.
Qed.

Lemma createInputs_heap_growth_witness :
  let cls := mk_cls "Foo" [("x", py_class "float"); ("s", py_str);
                           ("g", py_Annotated "G" ".g")] in
  ∃ new,
    heap (createInputs cls initial_state).2 = heap initial_state ++ new ∧
    length new = (length (List.filter (builds_class initial_state) (types cls)) + 3)%nat.
Proof.
  apply (createInputs_heap_growth _ initial_state _ (py_dyn 3)).
  - repeat constructor.
  - apply run_pair. vm_compute. reflexivity.
Defined.

(** ** A call that raises *)




(** A call stopped at line 129 has by then written every name: the
    class called [inputTypeGQLMapper] leaves three new bindings behind
    and no mapper entry. *)
Lemma failure_after_registration :
  let r := createInputs (mk_cls "inputTypeGQLMapper" []) initial_state in
  r.1 = Raised (TypeError "'type' object does not support item assignment") ∧
  module_attrs r.2 !! "inputTypeGQLMapper" = Some (py_dyn 2) ∧
  module_attrs r.2 !! "inputTypeGQLMapper_and" = Some (py_dyn 1) ∧
  module_attrs r.2 !! "inputTypeGQLMapper_or" = Some (py_dyn 0) ∧
  inputTypeGQLMapper r.2 !! py_dyn 2 = None.
Proof. by_evaluation. Qed.

(** ** The base of the generated classes *)

Lemma resolve_field_bases arg st o st' :
  resolve_field arg st = (o, st') →
  ∃ new, heap st' = heap st ++ new ∧
         Forall (λ c, c_base c = module_attrs st !! "object") new.
Proof.
  destruct arg as [[field name] k]. simpl. intros H.
  apply createCustomInput_inv in H
    as [[_ ->]|[(t & _ & _ & ->)|[(_ & _ & _ & ->)|(n & _ & _ & _ & _ & ->)]]];
    try (exists []; split; [by rewrite app_nil_r|constructor]).
  eexists. split; [reflexivity|]. repeat constructor.
  by destruct (module_attrs st !! "object").
Qed.

Lemma mapM_resolve_bases args st o st' :
  mapM resolve_field args st = (o, st') →
  ∃ new, heap st' = heap st ++ new ∧
         Forall (λ c, c_base c = module_attrs st !! "object") new.
Proof.
  revert st o st'. induction args as [|arg args IH]; intros st o st'; simpl.
  - intros [= <- <-]. exists []. split; [by rewrite app_nil_r|constructor].
  - unfold bind at 1. destruct (resolve_field arg st) as [[t|e] st1] eqn:H1.
    + pose proof (resolve_field_tables _ _ _ _ H1) as (_ & Ha & _).
      apply resolve_field_bases in H1 as (new1 & Hh1 & Hb1).
      unfold bind at 1.
      destruct (mapM resolve_field args st1) as [[ts|e] st2] eqn:H2;
        apply IH in H2 as (new2 & Hh2 & Hb2); rewrite Ha in Hb2;
        intros [= <- <-]; exists (new1 ++ new2);
        (split; [by rewrite Hh2, Hh1, app_assoc|by apply Forall_app]).
    + intros [= <- <-]. by eapply resolve_field_bases.
Qed.

(** X14: every class that a call which returns has put on the heap is
    built over what the global [object] was bound to when the call
    began: the builtin as long as the name is intact, and otherwise the
    class that an earlier call has bound to it, whose fields the new
    class then inherits. *)
Theorem generated_classes_base (cls : pycls) (st st' : state) (w : pytype) :
  createInputs cls st = (Returned w, st') →
  ∃ new,
    heap st' = heap st ++ new ∧
    Forall (λ c, c_base c = module_attrs st !! "object") new ∧
    (module_attrs st !! "object" = None → Forall (λ c, c_base c = None) new) ∧
    ∀ c, class_of (heap st') w = Some c → c_base c = module_attrs st !! "object".
Proof.
  intros Hrun.
  apply createInputs_Returned in Hrun as (ts & st1 & Hm & -> & Hheap & _).
  apply mapM_resolve_bases in Hm as (new & Hh & Hb).
  set (b := module_attrs st !! "object") in *.
  assert (Hall : Forall (λ c, c_base c = b)
            (new ++ [with_base b (OrType cls ts); with_base b (AndType cls ts);
                     with_base b (WhereType cls ts (length (heap st1)))])).
  { apply Forall_app. split; [done|]. repeat constructor; by destruct b. }
  exists (new ++ [with_base b (OrType cls ts); with_base b (AndType cls ts);
                  with_base b (WhereType cls ts (length (heap st1)))]).
  split; [rewrite Hheap; rewrite Hh at 1; by rewrite <- app_assoc|].
  split; [done|]. split.
  - intros Hnone. by rewrite Hnone in Hall |- *.
  - intros c Hc. cbn [class_of] in Hc. rewrite Hheap in Hc.
    destruct (lookup_three (heap st1) (with_base b (OrType cls ts))
                (with_base b (AndType cls ts))
                (with_base b (WhereType cls ts (length (heap st1)))))
      as (_ & _ & H2).
    rewrite H2 in Hc. injection Hc as <-. by destruct b.
Qed.

Lemma generated_classes_base_witness :
  let st := (createInputs (mk_cls "object" [("zz", py_str)]) initial_state).2 in
  let cls := mk_cls "E" [("x", py_class "float")] in
  ∃ new,
    heap (createInputs cls st).2 = heap st ++ new ∧
    Forall (λ c, c_base c = module_attrs st !! "object") new ∧
    (module_attrs st !! "object" = None → Forall (λ c, c_base c = None) new) ∧
    ∀ c, class_of (heap (createInputs cls st).2) (py_dyn 6) = Some c →
         c_base c = module_attrs st !! "object".
Proof.
  apply (generated_classes_base (mk_cls "E" [("x", py_class "float")])
           (createInputs (mk_cls "object" [("zz", py_str)]) initial_state).2).
  apply run_pair. vm_compute. reflexivity.
Defined.

(** After a class called [object] with a field [zz] has been decorated,
    the where type of a class without fields extends the where type of
    that class, and so has the attribute [zz]. *)
Lemma class_called_object_becomes_base :
  let r := createInputs (mk_cls "object" [("zz", py_str)]) initial_state in
  let r' := createInputs (mk_cls "E" []) r.2 in
  r.1 = Returned (py_dyn 2) ∧
  module_attrs r.2 !! "object" = Some (py_dyn 2) ∧
  r'.1 = Returned (py_dyn 5) ∧
  (c_base <$> class_of (heap r'.2) (py_dyn 5)) = Some (Some (py_dyn 2)) ∧
  (c_annotations <$> class_of (heap r'.2) (py_dyn 5))
  = Some [("_or", A_Optional (A_List (A_type (py_dyn 3))));
          ("_and", A_Optional (A_List (A_type (py_dyn 4))))] ∧
  class_has_attr 7 (heap r'.2) (py_dyn 5) "zz" = true.
Proof. by_evaluation. Qed.

(** ** The names a call derives *)

Lemma append_inj_r (a x y : string) : a +:+ x = a +:+ y → x = y.
Proof. induction a as [|c a IH]; simpl; [done|]. intros [= H]. by apply IH. Qed.

Lemma append_ne_self (a x : string) : x ≠ "" → a +:+ x ≠ a.
Proof.
  intros Hx. induction a as [|c a IH]; simpl; [done|]. intros [= H]. by apply IH.
Qed.

Lemma elem_of_opNames cls n :
  n ∈ opNames cls ↔ ∃ field, field ∈ fieldNames cls ∧ n = cls_name cls +:+ "_" +:+ field.
Proof.
  unfold opNames. change (map ?f ?l) with (f <$> l). rewrite list_elem_of_fmap.
  split; intros (field & H1 & H2); exists field; done.
Qed.

(** X5: for a class with distinct field names, the operator-class names
    of lines 19-25 are pairwise distinct and differ from the class's own
    name; the names of the where, and and or types differ from one
    another; and an operator-class name coincides with the and (or) type's
    name exactly when a field is called [and] ([or]). *)
Theorem derived_names_distinct (cls : pycls) :
  NoDup (fieldNames cls) →
  NoDup (opNames cls) ∧
  (whereName cls ∉ opNames cls) ∧
  whereName cls ≠ andName cls ∧ whereName cls ≠ orName cls ∧
  andName cls ≠ orName cls ∧
  (andName cls ∈ opNames cls ↔ "and" ∈ fieldNames cls) ∧
  (orName cls ∈ opNames cls ↔ "or" ∈ fieldNames cls).
Proof.
  intros Hnd. unfold whereName, andName, orName. repeat split.
  - unfold opNames. change (map ?f ?l) with (f <$> l).
    apply (@NoDup_fmap_2 _ _ (λ field_name, cls_name cls +:+ "_" +:+ field_name)); [|done].
    intros x y Hxy. apply append_inj_r in Hxy. cbv [String.append] in Hxy.
    by injection Hxy.
  - intros (field & _ & Heq)%elem_of_opNames.
    symmetry in Heq. by apply append_ne_self in Heq.
  - intros Heq. symmetry in Heq. by apply append_ne_self in Heq.
  - intros Heq. symmetry in Heq. by apply append_ne_self in Heq.
  - intros Heq. by apply append_inj_r in Heq.
  - intros (field & Hin & Heq)%elem_of_opNames.
    apply append_inj_r in Heq. cbv [String.append] in Heq. by injection Heq as <-.
  - intros Hin. apply elem_of_opNames. by exists "and".
  - intros (field & Hin & Heq)%elem_of_opNames.
    apply append_inj_r in Heq. cbv [String.append] in Heq. by injection Heq as <-.
  - intros Hin. apply elem_of_opNames. by exists "or".
Qed.

Lemma derived_names_distinct_witness :
  NoDup (opNames GroupInputWhereFilter) ∧
  (whereName GroupInputWhereFilter ∉ opNames GroupInputWhereFilter) ∧
  whereName GroupInputWhereFilter ≠ andName GroupInputWhereFilter ∧
  whereName GroupInputWhereFilter ≠ orName GroupInputWhereFilter ∧
  andName GroupInputWhereFilter ≠ orName GroupInputWhereFilter ∧
  (andName GroupInputWhereFilter ∈ opNames GroupInputWhereFilter
   ↔ "and" ∈ fieldNames GroupInputWhereFilter) ∧
  (orName GroupInputWhereFilter ∈ opNames GroupInputWhereFilter
   ↔ "or" ∈ fieldNames GroupInputWhereFilter).
Proof. apply (derived_names_distinct GroupInputWhereFilter). by_compute. Defined.

(** * Properties of the call-throughs *)

Module ResolversSpec.
Import Resolvers.
Local Open Scope prog_scope.

(** C10: for a class with a loader, [resolve_reference] returns [None]
    for the id [None] and makes no loader call; for a UUID, or a string
    that parses to one, it calls [load] once with that UUID and returns
    what the loader answered, the entity (same id and attributes, with
    the class's definition set on it) or [None]. *)
Theorem resolve_reference_spec (UUID_of_str : string → option UUID)
    (cls : model) (l : loader_name) (ld : loader) :
  getLoader cls = Some l →
  run ld (resolve_reference UUID_of_str cls id_None) = (Returned None, []) ∧
  (∀ u, run ld (resolve_reference UUID_of_str cls (id_UUID u))
        = (Returned (resolved_entity cls (ld [] (load l u))), [load l u])) ∧
  (∀ s u, UUID_of_str s = Some u →
          run ld (resolve_reference UUID_of_str cls (id_str s))
          = (Returned (resolved_entity cls (ld [] (load l u))), [load l u])) ∧
  (∀ answer,
     match answer, resolved_entity cls answer with
     | Some r, Some r' => row_id r' = row_id r ∧ row_name r' = row_name r
     | None, None => True
     | _, _ => False
     end).
Proof.
  intros Hl. split; [done|].
  assert (Hload : ∀ u, run ld (load_reference cls u)
                       = (Returned (resolved_entity cls (ld [] (load l u))), [load l u])).
  { intros u. unfold run, load_reference. rewrite Hl. simpl.
    by destruct (ld [] (load l u)). }
  split; [exact Hload|]. split.
  - intros s u Hs. simpl. rewrite Hs. apply Hload.
  - intros [r|]; simpl; done.
Qed.

Lemma resolve_reference_spec_witness :
  run sample_loader (resolve_reference sample_UUID_of_str GroupGQLModel id_None)
    = (Returned None, []) ∧
  (∀ u, run sample_loader (resolve_reference sample_UUID_of_str GroupGQLModel (id_UUID u))
        = (Returned (resolved_entity GroupGQLModel (sample_loader [] (load groups u))),
           [load groups u])) ∧
  (∀ s u, sample_UUID_of_str s = Some u →
          run sample_loader (resolve_reference sample_UUID_of_str GroupGQLModel (id_str s))
          = (Returned (resolved_entity GroupGQLModel (sample_loader [] (load groups u))),
             [load groups u])) ∧
  (∀ answer,
     match answer, resolved_entity GroupGQLModel answer with
     | Some r, Some r' => row_id r' = row_id r ∧ row_name r' = row_name r
     | None, None => True
     | _, _ => False
     end).
Proof.
  apply (resolve_reference_spec sample_UUID_of_str GroupGQLModel groups sample_loader).
  reflexivity.
Defined.

(** C9 (as the code has it): every update handler returns an envelope
    whose [msg] is ["ok"] when the loader answers with a row and
    ["fail"] when it answers [None], and whose [id] is the id of the
    input (for role categories, the id of the row when there is one);
    every insert handler, when the loader answers with the new row,
    returns the envelope with that row's id and ["ok"]. *)
Theorem mutation_envelopes (ld : loader) :
  (∀ group,
     let c := update groups (GroupUpdate group) in
     run ld (group_update group)
     = (Returned (mk_result (Some (gu_id group)) (Some (verdict (ld [] c)))), [c])) ∧
  (∀ group_type,
     let c := update grouptypes (GroupTypeUpdate group_type) in
     run ld (group_type_update group_type)
     = (Returned (mk_result (Some (gtu_id group_type)) (Some (verdict (ld [] c)))), [c])) ∧
  (∀ user,
     let c := update users (UserUpdate user) in
     run ld (user_update user)
     = (Returned (mk_result (Some (uu_id user)) (Some (verdict (ld [] c)))), [c])) ∧
  (∀ membership,
     let c := update memberships (MembershipUpdate membership) in
     run ld (membership_update membership)
     = (Returned (mk_result (Some (mu_id membership)) (Some (verdict (ld [] c)))), [c])) ∧
  (∀ role_category,
     let c := update rolecategories (RoleCategoryUpdate role_category) in
     run ld (role_category_update role_category)
     = (Returned (mk_result
                    (Some (match ld [] c with
                           | Some r => row_id r
                           | None => rcu_id role_category
                           end))
                    (Some (verdict (ld [] c)))), [c])) ∧
  (∀ group r,
     let c := insert groups (GroupInsert group) in
     ld [] c = Some r →
     run ld (group_insert group)
     = (Returned (mk_result (Some (row_id r)) (Some "ok")), [c])) ∧
  (∀ group_type r,
     let c := insert grouptypes (GroupTypeInsert group_type) in
     ld [] c = Some r →
     run ld (group_type_insert group_type)
     = (Returned (mk_result (Some (row_id r)) (Some "ok")), [c])) ∧
  (∀ user r,
     let c := insert users (UserInsert user) in
     ld [] c = Some r →
     run ld (user_insert user)
     = (Returned (mk_result (Some (row_id r)) (Some "ok")), [c])) ∧
  (∀ membership r,
     let c := insert memberships (MembershipInsert membership) in
     ld [] c = Some r →
     run ld (membership_insert membership)
     = (Returned (mk_result (Some (row_id r)) (Some "ok")), [c])) ∧
  (∀ role_category r,
     let c := insert rolecategories (RoleCategoryInsert role_category) in
     ld [] c = Some r →
     run ld (role_category_insert role_category)
     = (Returned (mk_result (Some (row_id r)) (Some "ok")), [c])).
Proof.
  repeat split; intros x; cbn zeta.
  1-5: unfold run; simpl; by destruct (ld [] _).
  all: intros r Hr; unfold run; simpl; by rewrite Hr.
Qed.

(** C9, as stated, fails on an insert that the loader answers with
    [None]: [membership_insert] reads [row.id] and raises; no envelope
    with ["fail"] is returned. *)
Lemma membership_insert_None_raises :
  silent_loader [] (insert memberships (MembershipInsert sample_membership)) = None ∧
  run silent_loader (membership_insert sample_membership)
  = (Raised (AttributeError "id"),
     [insert memberships (MembershipInsert sample_membership)]).
Proof. split; reflexivity. Qed.

(** ** Further properties of the call-throughs *)

(** Running [p] and then [f] is running [p], then [f] from the calls
    made so far. *)
Lemma run_from_pbind {A B} (ld : loader) (p : prog A) (f : A → prog B) history :
  run_from ld history (pbind p f)
  = match run_from ld history p with
    | (Returned a, history') => run_from ld history' (f a)
    | (Raised e, history') => (Raised e, history')
    end.
Proof.
  revert history. induction p as [a|e|c k IH]; intros history; simpl; [done..|].
  apply IH.
Qed.

(** X6: [resolve_reference] raises [ValueError] on a string that
    [uuid.UUID] rejects, whatever the class, and on the base class,
    which has no loader, it raises [AttributeError] for any id that is
    a UUID or parses to one; in both cases no loader call is made.  The
    id [None] returns [None] even on the base class. *)
Theorem resolve_reference_failures (UUID_of_str : string → option UUID)
    (ld : loader) :
  (∀ cls s, UUID_of_str s = None →
     run ld (resolve_reference UUID_of_str cls (id_str s))
     = (Raised (ValueError "badly formed hexadecimal UUID string"), [])) ∧
  (∀ u, run ld (resolve_reference UUID_of_str BaseGQLModel (id_UUID u))
        = (Raised (AttributeError "load"), [])) ∧
  (∀ s u, UUID_of_str s = Some u →
     run ld (resolve_reference UUID_of_str BaseGQLModel (id_str s))
     = (Raised (AttributeError "load"), [])) ∧
  run ld (resolve_reference UUID_of_str BaseGQLModel id_None) = (Returned None, []).
Proof.
  repeat split.
  - intros cls s Hs. unfold run. simpl. by rewrite Hs.
  - intros s u Hs. unfold run. simpl. by rewrite Hs.
Qed.

(** X7: every insert handler makes one [insert] call and, when the
    loader answers [None], raises [AttributeError] on [id]; none of them
    ever returns an envelope whose [msg] is ["fail"], the test on
    [updatedrow is None] in [group_insert] and [group_type_insert]
    included. *)
Theorem insert_handlers_on_None (ld : loader) :
  let outcome_of (c : loader_call) : outcome ResultGQLModel * list loader_call :=
    (match ld [] c with
     | Some r => Returned (mk_result (Some (row_id r)) (Some "ok"))
     | None => Raised (AttributeError "id")
     end, [c]) in
  (∀ group, run ld (group_insert group)
            = outcome_of (insert groups (GroupInsert group))) ∧
  (∀ group_type, run ld (group_type_insert group_type)
                 = outcome_of (insert grouptypes (GroupTypeInsert group_type))) ∧
  (∀ user, run ld (user_insert user)
           = outcome_of (insert users (UserInsert user))) ∧
  (∀ membership, run ld (membership_insert membership)
                 = outcome_of (insert memberships (MembershipInsert membership))) ∧
  (∀ role_category, run ld (role_category_insert role_category)
                    = outcome_of (insert rolecategories
                                    (RoleCategoryInsert role_category))) ∧
  (∀ c result calls, outcome_of c = (Returned result, calls) →
                     msg result = Some "ok").
Proof.
  cbn zeta. repeat split.
  1-5: intros x; unfold run; simpl; by destruct (ld [] _).
  intros c result calls. destruct (ld [] c); intros [= <- _]; done.
Qed.

(** X8: the entity field of a result envelope loads the entity by the
    envelope's id, with no loader call when that id is [None].  For
    group types, users, memberships and role categories an unresolved
    reference gives [None]; the one for groups reads [result.id] for its
    print and raises [AttributeError] instead, so it never returns
    [None]. *)
Theorem envelope_entity (UUID_of_str : string → option UUID) (ld : loader)
    (self : ResultGQLModel) :
  let resolved (cls : model) (l : loader_name) : outcome (option row) * list loader_call :=
    match id self with
    | None => (Returned None, [])
    | Some u => (Returned (resolved_entity cls (ld [] (load l u))), [load l u])
    end in
  run ld (GroupTypeResultGQLModel_group_type UUID_of_str self)
    = resolved GroupTypeGQLModel grouptypes ∧
  run ld (UserResultGQLModel_user UUID_of_str self) = resolved UserGQLModel users ∧
  run ld (MembershipResultGQLModel_membership UUID_of_str self)
    = resolved MembershipGQLModel memberships ∧
  run ld (RoleCategoryResultGQLModel_role_category UUID_of_str self)
    = resolved RoleCategoryGQLModel rolecategories ∧
  run ld (GroupResultGQLModel_group UUID_of_str self)
    = match id self with
      | None => (Raised (AttributeError "id"), [])
      | Some u =>
          (match ld [] (load groups u) with
           | Some r => Returned (Some (set_strawberry_definition r GroupGQLModel))
           | None => Raised (AttributeError "id")
           end, [load groups u])
      end ∧
  (∀ calls, run ld (GroupResultGQLModel_group UUID_of_str self) ≠ (Returned None, calls)).
Proof.
  cbn zeta.
  assert (Hgroup :
    run ld (GroupResultGQLModel_group UUID_of_str self)
    = match id self with
      | None => (Raised (AttributeError "id"), [])
      | Some u =>
          (match ld [] (load groups u) with
           | Some r => Returned (Some (set_strawberry_definition r GroupGQLModel))
           | None => Raised (AttributeError "id")
           end, [load groups u])
      end).
  { cbv [run GroupResultGQLModel_group id_of_envelope].
    destruct (id self) as [u|]; simpl; [|done]. by destruct (ld [] (load groups u)). }
  repeat split.
  1-4: clear Hgroup;
       cbv [run id_of_envelope GroupTypeResultGQLModel_group_type
            UserResultGQLModel_user MembershipResultGQLModel_membership
            RoleCategoryResultGQLModel_role_category];
       destruct (id self) as [u|]; simpl; [|done]; by destruct (ld [] _).
  - exact Hgroup.
  - intros calls. rewrite Hgroup. destruct (id self) as [u|]; [|done].
    by destruct (ld [] (load groups u)).
Qed.

(** X9: an update handler followed by the entity field of its envelope
    makes two calls, the update and then a load of the input's id (for
    role categories the id of the updated row when there is one), whether
    or not the update found its row, and yields what that load answers;
    for groups an unanswered load raises. *)
Theorem update_then_entity (UUID_of_str : string → option UUID) (ld : loader) :
  (∀ user,
     let c1 := update users (UserUpdate user) in
     let c2 := load users (uu_id user) in
     run ld (pbind (user_update user) (UserResultGQLModel_user UUID_of_str))
     = (Returned (resolved_entity UserGQLModel (ld [c1] c2)), [c1; c2])) ∧
  (∀ membership,
     let c1 := update memberships (MembershipUpdate membership) in
     let c2 := load memberships (mu_id membership) in
     run ld (pbind (membership_update membership)
               (MembershipResultGQLModel_membership UUID_of_str))
     = (Returned (resolved_entity MembershipGQLModel (ld [c1] c2)), [c1; c2])) ∧
  (∀ group_type,
     let c1 := update grouptypes (GroupTypeUpdate group_type) in
     let c2 := load grouptypes (gtu_id group_type) in
     run ld (pbind (group_type_update group_type)
               (GroupTypeResultGQLModel_group_type UUID_of_str))
     = (Returned (resolved_entity GroupTypeGQLModel (ld [c1] c2)), [c1; c2])) ∧
  (∀ role_category,
     let c1 := update rolecategories (RoleCategoryUpdate role_category) in
     let c2 := load rolecategories
                 (match ld [] c1 with
                  | Some r => row_id r
                  | None => rcu_id role_category
                  end) in
     run ld (pbind (role_category_update role_category)
               (RoleCategoryResultGQLModel_role_category UUID_of_str))
     = (Returned (resolved_entity RoleCategoryGQLModel (ld [c1] c2)), [c1; c2])) ∧
  (∀ group,
     let c1 := update groups (GroupUpdate group) in
     let c2 := load groups (gu_id group) in
     run ld (pbind (group_update group) (GroupResultGQLModel_group UUID_of_str))
     = (match ld [c1] c2 with
        | Some r => Returned (Some (set_strawberry_definition r GroupGQLModel))
        | None => Raised (AttributeError "id")
        end, [c1; c2])).
Proof.
  repeat split; intros x; cbn zeta; unfold run; rewrite run_from_pbind;
    cbv [UserResultGQLModel_user MembershipResultGQLModel_membership
         GroupTypeResultGQLModel_group_type RoleCategoryResultGQLModel_role_category
         GroupResultGQLModel_group id_of_envelope]; simpl.
  - destruct (ld [] _); simpl; by destruct (ld [_] _).
  - destruct (ld [] _); simpl; by destruct (ld [_] _).
  - destruct (ld [] _); simpl; by destruct (ld [_] _).
  - destruct (ld [] _); simpl; by destruct (ld [_] _).
  - destruct (ld [] _); simpl; by destruct (ld [_] _).
Qed.

End ResolversSpec.

(** * Properties of the handlers that pass rows and statements *)

Module QueriesSpec.
Import Resolvers Queries.

(** X10: [group_update_master] never raises; its envelope always
    carries the id of the input; [msg] is ["ok"] exactly when the group
    was loaded, the master was loaded and the update was answered with a
    row; and [update] is called only after both loads have found their
    rows, as the third and last call. *)
Theorem group_update_master_outcome (ld : row_loader) (master_id : UUID)
    (group : GroupUpdateGQLModel) :
  let r := run_task ld [] (group_update_master master_id group) in
  let c1 := load_row groups (gu_id group) in
  let c2 := load_row groups master_id in
  let all_found :=
    ∃ row, ld [] c1 = Some row ∧ is_Some (ld [c1] c2) ∧
           is_Some (ld [c1; c2]
                      (update_row groups (<["master_id" := v_UUID master_id]> row))) in
  (r.1 = Returned (mk_result (Some (gu_id group)) (Some "ok")) ∧ all_found
   ∨ r.1 = Returned (mk_result (Some (gu_id group)) (Some "fail")) ∧ ¬ all_found) ∧
  (∀ e, update_row groups e ∈ r.2 →
        is_Some (ld [] c1) ∧ is_Some (ld [c1] c2) ∧ r.2 = [c1; c2; update_row groups e]) ∧
  (is_Some (ld [] c1) → is_Some (ld [c1] c2) → ∃ e, r.2 = [c1; c2; update_row groups e]).
Proof.
  cbn zeta. unfold group_update_master. simpl.
  destruct (ld [] (load_row groups (gu_id group))) as [row|] eqn:H1; simpl.
  2: { split; [|split].
       - right. split; [done|]. intros (row & ? & _). done.
       - intros e [?|Hin%elem_of_nil]%elem_of_cons; done.
       - intros [? ?]; done. }
  destruct (ld [load_row groups (gu_id group)] (load_row groups master_id))
    as [master|] eqn:H2; simpl.
  2: { split; [|split].
       - right. split; [done|]. intros (row' & _ & [? ?] & _). done.
       - intros e Hin. exfalso.
         repeat (apply elem_of_cons in Hin as [?|Hin]; [done|]).
         by apply elem_of_nil in Hin.
       - intros _ [? ?]; done. }
  assert (Hcalls : ∀ (e : entity) (rest : list loader_method),
            rest = [load_row groups (gu_id group); load_row groups master_id;
                    update_row groups (<["master_id" := v_UUID master_id]> row)] →
            update_row groups e ∈ rest →
            is_Some (Some row) ∧ is_Some (Some master) ∧
            rest = [load_row groups (gu_id group); load_row groups master_id;
                    update_row groups e]).
  { intros e rest -> Hin.
    repeat (apply elem_of_cons in Hin as [Heq|Hin]; [try done|]).
    - injection Heq as ->. eauto.
    - by apply elem_of_nil in Hin. }
  destruct (ld [load_row groups (gu_id group); load_row groups master_id]
              (update_row groups (<["master_id" := v_UUID master_id]> row)))
    as [updated|] eqn:H3; simpl.
  - split; [|split].
    + left. split; [done|]. exists row. rewrite H3. eauto.
    + intros e Hin. by eapply Hcalls.
    + intros _ _. eauto.
  - split; [|split].
    + right. split; [done|]. intros (row' & [= <-] & _ & [? Hu]).
      rewrite H3 in Hu. done.
    + intros e Hin. by eapply Hcalls.
    + intros _ _. eauto.
Qed.

(** X11: the row that [group_update_master] passes to [update] is the
    loaded group row with its attribute [master_id] set to the given
    id; every other attribute, [mastergroup_id] among them, is passed as
    loaded.  Of the input only the [id] is used: two inputs with the
    same [id] give the same handler. *)
Theorem group_update_master_row (ld : row_loader) (master_id : UUID)
    (group : GroupUpdateGQLModel) :
  let r := run_task ld [] (group_update_master master_id group) in
  (∀ e, update_row groups e ∈ r.2 →
     ∃ row, ld [] (load_row groups (gu_id group)) = Some row ∧
            e !! "master_id" = Some (v_UUID master_id) ∧
            e !! "mastergroup_id" = row !! "mastergroup_id" ∧
            ∀ attr, attr ≠ "master_id" → e !! attr = row !! attr) ∧
  (∀ group', gu_id group' = gu_id group →
             group_update_master master_id group' = group_update_master master_id group).
Proof.
  cbn zeta. split.
  - unfold group_update_master. simpl.
    destruct (ld [] (load_row groups (gu_id group))) as [row|] eqn:H1; simpl.
    2: { intros e [?|Hin%elem_of_nil]%elem_of_cons; done. }
    destruct (ld [load_row groups (gu_id group)] (load_row groups master_id))
      as [master|] eqn:H2; simpl.
    2: { intros e Hin. exfalso.
         repeat (apply elem_of_cons in Hin as [?|Hin]; [done|]).
         by apply elem_of_nil in Hin. }
    assert (Hrow : ∀ e,
              e = <["master_id" := v_UUID master_id]> row →
              ∃ row0, Some row = Some row0 ∧
                      e !! "master_id" = Some (v_UUID master_id) ∧
                      e !! "mastergroup_id" = row0 !! "mastergroup_id" ∧
                      ∀ attr, attr ≠ "master_id" → e !! attr = row0 !! attr).
    { intros e ->. exists row. split; [done|]. split; [apply lookup_insert_eq|].
      split; [by rewrite lookup_insert_ne|].
      intros attr Hne. by rewrite lookup_insert_ne. }
    destruct (ld _ (update_row groups _)); simpl; intros e Hin;
      repeat (apply elem_of_cons in Hin as [Heq|Hin]; [try done|]);
      try (by apply elem_of_nil in Hin);
      injection Heq as ->; by apply Hrow.
  - intros group' Heq. unfold group_update_master. by rewrite Heq.
Qed.

Lemma len_app (a b : string) : len (a +:+ b) = (len a + len b)%nat.
Proof. induction a as [|c a IH]; simpl; [done|]. rewrite IH. lia. Qed.

(** X13: both searches count the letters as characters, not as bytes.
    With fewer than three, the empty default included, they return the
    empty list and make no loader call, whatever [validity] is.  With
    three or more and a [validity] that is not [None], they make one
    [execute_select] call and return its answer unchanged; the statement
    matches the name (for users, name, a space, surname) against
    [%letters%] and filters on [valid=True], also when [validity] is
    [False]: the value of [validity] is never used. *)
Theorem by_letters_validity (ld : row_loader) (validity : bool) (letters : string) :
  let cg :=
    execute_select groups
      (filter_by
         (where_like (getSelectStatement groups) (model_attr groups "name")
            ("%" +:+ letters +:+ "%"))
         "valid" (v_bool true)) in
  let cu :=
    execute_select users
      (filter_by
         (where_like (getSelectStatement users)
            (sql_add (sql_add (model_attr users "name") (str_const " "))
               (model_attr users "surname"))
            ("%" +:+ letters +:+ "%"))
         "valid" (v_bool true)) in
  ((len letters < 3)%nat →
   ∀ v, run_task ld [] (group_by_letters v letters) = (Returned [], []) ∧
        run_task ld [] (user_by_letters v letters) = (Returned [], [])) ∧
  ((3 ≤ len letters)%nat →
   run_task ld [] (group_by_letters (Some validity) letters) = (Returned (ld [] cg), [cg]) ∧
   run_task ld [] (user_by_letters (Some validity) letters) = (Returned (ld [] cu), [cu])) ∧
  group_by_letters (Some validity) letters = group_by_letters (Some true) letters ∧
  user_by_letters (Some validity) letters = user_by_letters (Some true) letters ∧
  len "éé" = 2%nat ∧
  (∀ a b, len (a +:+ b) = (len a + len b)%nat).
Proof.
  cbn zeta. unfold group_by_letters, user_by_letters. repeat apply conj.
  - intros Hlen v. apply Nat.ltb_lt in Hlen. by rewrite Hlen.
  - intros Hlen.
    assert (Hge : (len letters <? 3)%nat = false) by (apply Nat.ltb_ge; lia).
    by rewrite Hge.
  - done.
  - done.
  - reflexivity.
  - apply len_app.
Qed.

Lemma by_letters_validity_witness :
  let ld := constant_loader [{["name" := v_str "Faculty"]}] in
  let cg :=
    execute_select groups
      (filter_by
         (where_like (getSelectStatement groups) (model_attr groups "name")
            ("%" +:+ "Fác" +:+ "%"))
         "valid" (v_bool true)) in
  let cu :=
    execute_select users
      (filter_by
         (where_like (getSelectStatement users)
            (sql_add (sql_add (model_attr users "name") (str_const " "))
               (model_attr users "surname"))
            ("%" +:+ "Fác" +:+ "%"))
         "valid" (v_bool true)) in
  (run_task ld [] (group_by_letters (Some false) "éé") = (Returned [], []) ∧
   run_task ld [] (user_by_letters (Some false) "éé") = (Returned [], [])) ∧
  (run_task ld [] (group_by_letters (Some false) "Fác") = (Returned (ld [] cg), [cg]) ∧
   run_task ld [] (user_by_letters (Some false) "Fác") = (Returned (ld [] cu), [cu])).
Proof.
  split.
  - apply (by_letters_validity (constant_loader [{["name" := v_str "Faculty"]}]) false "éé").
    vm_compute. lia.
  - apply (by_letters_validity (constant_loader [{["name" := v_str "Faculty"]}]) false "Fác").
    vm_compute. lia.
Defined.

End QueriesSpec.
